(** * gatewayinfo: the public gateway information middleware

    A shallow embedding of [middleware/gatewayinfo/gatewayinfo.go]: the
    mutex-guarded store of gateway records, the permit channel that limits
    queries to the account server, and the four handlers that enrich
    messages from the store.

    Conventions of the embedding.
    - Every method that runs under [p.mu] is one atomic function on the
      state; the interleaving of goroutines is the order in which these
      functions are applied.
    - [go f(x)] does not run [f]: the handler returns the goroutines it
      started, and the caller of the model decides when they run.
    - Each call of [time.Now()] is an argument of the function that makes
      it, so nothing is assumed about how far the clock moved in between.
    - The map holds [*info], but every pointer is allocated by [set] or
      [setErr] for one key and never leaves the store, so the map is
      modelled by value. *)

From Stdlib Require Import ZArith Lia.
From stdpp Require Import base option list strings gmap.

(** ** Time *)

(** A reading of the clock, in nanoseconds. *)
Definition Time : Type := Z.

(** [time.Duration]: a signed 64-bit count of nanoseconds. *)
Definition Duration : Type := Z.

Definition minDuration : Duration := (- 2 ^ 63)%Z.
Definition maxDuration : Duration := (2 ^ 63 - 1)%Z.

(** [t.Sub(u)]: the difference, saturated to the range of [Duration]. *)
Definition Sub (t u : Time) : Duration :=
  if (t - u <? minDuration)%Z then minDuration
  else if (maxDuration <? t - u)%Z then maxDuration
  else (t - u)%Z.

(** [time.Since(t)] is [time.Now().Sub(t)]; [now] is that reading. *)
Definition Since (now t : Time) : Duration := Sub now t.

(** ** Errors, traces, log *)

(** An [error] value, identified by its message; [None] is [nil]. *)
Definition error : Type := string.

(** [trace.Trace]: [WithEvent] puts a new event in front of its parent. *)
Inductive Trace : Type :=
| TraceNil
| TraceEvent (event : string) (metadata : list (string * string)) (parent : Trace).

Definition WithEvent (t : Trace) (event : string) (keyvalue : list (string * string)) : Trace :=
  TraceEvent event keyvalue t.

Inductive log_level : Type := LevelDebug | LevelWarn.

Record log_entry : Type := LogEntry {
  log_lvl : log_level;
  log_fields : list (string * string);
  log_msg : string
}.

(** [strings.Join] *)
Fixpoint Join (elems : list string) (sep : string) : string :=
  match elems with
  | [] => ""
  | e :: rest =>
      match rest with
      | [] => e
      | _ :: _ => e +:+ sep +:+ Join rest sep
      end
  end.

(** ** The permit channel

    [available] is a [chan struct{}]: only the number of buffered values
    matters.  [chan_recvq] lists the goroutines parked in a receive, oldest
    first, each named by the gateway it is fetching. *)
Record chan : Type := Chan {
  chan_cap : nat;
  chan_len : nat;
  chan_recvq : list string
}.

(** [make(chan struct{}, n)]; a negative size panics. *)
Definition make_chan (n : Z) : option chan :=
  if (n <? 0)%Z then None else Some (Chan (Z.to_nat n) 0 []).

(** The outcome of offering one value to the channel. *)
Inductive send_result : Type :=
| Handed (c : chan) (receiver : string)   (* given to the oldest parked receiver *)
| Buffered (c : chan)                     (* stored in the buffer *)
| Full.                                   (* the send cannot proceed now *)

Definition chan_send (c : chan) : send_result :=
  match chan_recvq c with
  | r :: q => Handed (Chan (chan_cap c) (chan_len c) q) r
  | [] =>
      if chan_len c <? chan_cap c
      then Buffered (Chan (chan_cap c) (S (chan_len c)) [])
      else Full
  end.

(** The outcome of [<-c] by the goroutine fetching [who]. *)
Inductive recv_result : Type :=
| Received (c : chan)     (* a buffered value was taken *)
| Parked (c : chan).      (* nothing buffered: the goroutine waits *)

Definition chan_recv (c : chan) (who : string) : recv_result :=
  match chan_len c with
  | S n => Received (Chan (chan_cap c) n (chan_recvq c))
  | O => Parked (Chan (chan_cap c) 0 (chan_recvq c ++ [who]))
  end.

(** Goroutines started with [go]. *)
Inductive goroutine : Type :=
| GoFetch (gatewayID : string)       (* go p.fetch(gatewayID) *)
| GoConnect (gatewayID : string)     (* the closure of HandleConnect *)
| GoUnset (gatewayID : string).      (* go p.unset(gatewayID) *)

Section GatewayInfo.

(** The numeric types of the account library and of the gateway API, and
    the conversions [float32(_)] and [int32(_)] between them. *)
Context {float64 float32 altitude int32 : Type}.
Context (to_float32 : float64 -> float32) (to_int32 : altitude -> int32).

(** *** [account.Gateway], the fields the middleware reads *)

Record Location : Type := mkLocation {
  loc_Latitude : float64;
  loc_Longitude : float64;
  loc_Altitude : altitude
}.

Record GatewayAttributes : Type := mkGatewayAttributes {
  Brand : option string;
  Model : option string;
  Description : option string
}.

Record Gateway : Type := mkGateway {
  AntennaLocation : option Location;
  FrequencyPlan : string;
  Attributes : GatewayAttributes
}.

(** The zero value of [account.Gateway]. *)
Definition zero_Gateway : Gateway :=
  mkGateway None "" (mkGatewayAttributes None None None).

(** *** Messages, the fields the middleware reads or writes.
    [msg.Message] and the gateway metadata of an uplink are pointers the
    handlers dereference without a check.  The records below are the
    messages in which these pointers are set; the messages in which they
    may be nil, and the handlers on those, come after [HandleStatus].
    [msg] itself is taken to be non-nil throughout. *)

Record GPSMetadata : Type := mkGPSMetadata {
  gps_Latitude : float32;
  gps_Longitude : float32;
  gps_Altitude : int32
}.

Record RxMetadata : Type := mkRxMetadata {
  rx_Gps : option GPSMetadata
}.

Record router_UplinkMessage : Type := mkRouterUplink {
  up_GatewayMetadata : RxMetadata;
  up_Trace : Trace
}.

Record UplinkMessage : Type := mkUplinkMessage {
  uplink_GatewayID : string;
  uplink_Message : router_UplinkMessage
}.

Record Status : Type := mkStatus {
  st_Gps : option GPSMetadata;
  st_FrequencyPlan : string;
  st_Platform : string;
  st_Description : string
}.

Record StatusMessage : Type := mkStatusMessage {
  status_GatewayID : string;
  status_Message : Status
}.

Record ConnectMessage : Type := mkConnectMessage {
  connect_GatewayID : string
}.

Record DisconnectMessage : Type := mkDisconnectMessage {
  disconnect_GatewayID : string
}.

(** *** The middleware state *)

Record info : Type := mkInfo {
  lastUpdated : Time;
  err : option error;
  gateway : Gateway
}.

Record Public : Type := mkPublic {
  p_expire : Duration;
  p_info : gmap string info;
  p_available : chan
}.

Definition with_info (p : Public) (m : gmap string info) : Public :=
  mkPublic (p_expire p) m (p_available p).

Definition with_available (p : Public) (c : chan) : Public :=
  mkPublic (p_expire p) (p_info p) c.

(** The loop of [NewPublic] that fills the channel: [n] blocking sends.
    [None] if one of them could not proceed. *)
Fixpoint fill (n : nat) (c : chan) : option chan :=
  match n with
  | O => Some c
  | S n' =>
      match chan_send c with
      | Buffered c' => fill n' c'
      | Handed c' _ => fill n' c'
      | Full => None
      end
  end.

(** [NewPublic], with the package variable [RequestBurst] as an argument.
    The ticker goroutine it starts is [tick] below. *)
Definition NewPublic (accountServer : string) (RequestBurst : Z) : option Public :=
  c ← make_chan RequestBurst;
  c' ← fill (Z.to_nat RequestBurst) c;
  Some (mkPublic 0%Z ∅ c').

(** One iteration of the ticker goroutine:
    [select { case p.available <- struct{}{}: default: }].
    Returns the fetch that was woken, if any. *)
Definition tick (p : Public) : Public * option string :=
  match chan_send (p_available p) with
  | Handed c r => (with_available p c, Some r)
  | Buffered c => (with_available p c, None)
  | Full => (p, None)
  end.

Definition WithExpire (p : Public) (duration : Duration) : Public :=
  mkPublic duration (p_info p) (p_available p).

Definition setErr (p : Public) (gatewayID : string) (e : option error) (now : Time) : Public :=
  match p_info p !! gatewayID with
  | Some gtw => with_info p (<[gatewayID := mkInfo now e (gateway gtw)]> (p_info p))
  | None => with_info p (<[gatewayID := mkInfo now e zero_Gateway]> (p_info p))
  end.

Definition set (p : Public) (gatewayID : string) (g : Gateway) (now : Time) : Public :=
  with_info p (<[gatewayID := mkInfo now None g]> (p_info p)).

(** What [get] gives back: the state, the two results, and the goroutines
    it started. *)
Record get_result : Type := mkGetResult {
  get_state : Public;
  get_gateway : Gateway;
  get_err : option error;
  get_spawned : list goroutine
}.

(** [now_since] is the clock read by [time.Since], [now_bump] the one read
    by the assignment to [lastUpdated]. *)
Definition expired (p : Public) (i : info) (now_since : Time) : bool :=
  negb (p_expire p =? 0)%Z && (p_expire p <? Since now_since (lastUpdated i))%Z.

Definition get (p : Public) (gatewayID : string) (now_since now_bump : Time) : get_result :=
  match p_info p !! gatewayID with
  | None => mkGetResult p zero_Gateway None []
  | Some i =>
      if expired p i now_since
      then mkGetResult
             (with_info p (<[gatewayID := mkInfo now_bump (err i) (gateway i)]> (p_info p)))
             (gateway i) (err i) [GoFetch gatewayID]
      else mkGetResult p (gateway i) (err i) []
  end.

Definition unset (p : Public) (gatewayID : string) : Public :=
  with_info p (delete gatewayID (p_info p)).

(** *** [fetch]

    [fetch_recv] is line 71, the receive from [p.available]: [true] when a
    permit was buffered, [false] when the goroutine is parked.
    [fetch_lookup] is the rest, run once the permit is held; [found] is what
    [p.account.FindGateway] returned. *)
Definition fetch_recv (p : Public) (gatewayID : string) : Public * bool :=
  match chan_recv (p_available p) gatewayID with
  | Received c => (with_available p c, true)
  | Parked c => (with_available p c, false)
  end.

Definition fetch_lookup (p : Public) (gatewayID : string)
    (found : Gateway * option error) (now : Time) : Public * option error :=
  match snd found with
  | Some e => (setErr p gatewayID (Some e) now, Some e)
  | None => (set p gatewayID (fst found) now, None)
  end.

(** A fetch that finds a permit buffered runs through; [None] when it parks. *)
Definition fetch (p : Public) (gatewayID : string)
    (found : Gateway * option error) (now : Time) : option (Public * option error) :=
  match fetch_recv p gatewayID with
  | (p', true) => Some (fetch_lookup p' gatewayID found now)
  | (_, false) => None
  end.

(** The closure started by [HandleConnect], after its [fetch] returned
    [result]: what it logs. *)
Definition connect_log (gatewayID : string) (result : option error) : log_entry :=
  match result with
  | Some e =>
      LogEntry LevelWarn [("GatewayID", gatewayID); ("error", e)]
        "Could not get public Gateway information"
  | None =>
      LogEntry LevelDebug [("GatewayID", gatewayID)] "Got public Gateway information"
  end.

(** The whole closure, for a fetch that does not park. *)
Definition connect_goroutine (p : Public) (gatewayID : string)
    (found : Gateway * option error) (now : Time) : option (Public * log_entry) :=
  match fetch p gatewayID found now with
  | Some (p', result) => Some (p', connect_log gatewayID result)
  | None => None
  end.

(** *** The handlers

    A handler returns the state, the message as it left it, the goroutines
    it started, and its [error] result. *)
Record handled (M : Type) : Type := mkHandled {
  h_state : Public;
  h_msg : M;
  h_spawned : list goroutine;
  h_err : option error
}.
Arguments mkHandled {M} _ _ _ _.
Arguments h_state {M} _.
Arguments h_msg {M} _.
Arguments h_spawned {M} _.
Arguments h_err {M} _.

Definition HandleConnect (p : Public) (msg : ConnectMessage) : handled ConnectMessage :=
  mkHandled p msg [GoConnect (connect_GatewayID msg)] None.

Definition HandleDisconnect (p : Public) (msg : DisconnectMessage) : handled DisconnectMessage :=
  mkHandled p msg [GoUnset (disconnect_GatewayID msg)] None.

(** The [&gateway.GPSMetadata{...}] literal of both handlers. *)
Definition gps_of_location (loc : Location) : GPSMetadata :=
  mkGPSMetadata (to_float32 (loc_Latitude loc))
                (to_float32 (loc_Longitude loc))
                (to_int32 (loc_Altitude loc)).

Definition HandleUplink (p : Public) (msg : UplinkMessage) (now_since now_bump : Time)
    : handled UplinkMessage :=
  let r := get p (uplink_GatewayID msg) now_since now_bump in
  let info := get_gateway r in
  let trace :=
    match get_err r with
    | Some e =>
        WithEvent (up_Trace (uplink_Message msg)) "unable to get gateway info" [("error", e)]
    | None => up_Trace (uplink_Message msg)
    end in
  let meta := up_GatewayMetadata (uplink_Message msg) in
  match rx_Gps meta, AntennaLocation info with
  | None, Some loc =>
      mkHandled (get_state r)
        (mkUplinkMessage (uplink_GatewayID msg)
           (mkRouterUplink (mkRxMetadata (Some (gps_of_location loc)))
                           (WithEvent trace "injecting gateway location" [])))
        (get_spawned r) None
  | _, _ =>
      mkHandled (get_state r)
        (mkUplinkMessage (uplink_GatewayID msg) (mkRouterUplink meta trace))
        (get_spawned r) None
  end.

(** The slice [platform] that [HandleStatus] joins. *)
Definition platform_elems (a : GatewayAttributes) : list string :=
  let platform := [] in
  let platform := match Brand a with Some b => platform ++ [b] | None => platform end in
  let platform := match Model a with Some m => platform ++ [m] | None => platform end in
  platform.

Definition HandleStatus (p : Public) (msg : StatusMessage) (now_since now_bump : Time)
    : handled StatusMessage :=
  let r := get p (status_GatewayID msg) now_since now_bump in
  let info := get_gateway r in
  let m := status_Message msg in
  let gps :=
    match st_Gps m, AntennaLocation info with
    | None, Some loc => Some (gps_of_location loc)
    | g, _ => g
    end in
  let frequencyPlan :=
    if String.eqb (st_FrequencyPlan m) "" && negb (String.eqb (FrequencyPlan info) "")
    then FrequencyPlan info else st_FrequencyPlan m in
  let platform :=
    if String.eqb (st_Platform m) ""
    then Join (platform_elems (Attributes info)) " " else st_Platform m in
  let description :=
    match String.eqb (st_Description m) "", Description (Attributes info) with
    | true, Some d => d
    | _, _ => st_Description m
    end in
  mkHandled (get_state r)
    (mkStatusMessage (status_GatewayID msg) (mkStatus gps frequencyPlan platform description))
    (get_spawned r) None.

(** *** The handlers on messages whose pointers may be nil

    [msg.Message] is a [*router.UplinkMessage] or a [*gateway.Status], and
    the gateway metadata of an uplink is a [*gateway.RxMetadata]; [None] is
    [nil].  A handler that dereferences [nil] panics: it returns nothing,
    and what is left is the state and the goroutines of the [get] it made
    before. *)

Record nilable_router_UplinkMessage : Type := mkNilableRouterUplink {
  nup_GatewayMetadata : option RxMetadata;
  nup_Trace : Trace
}.

Record nilable_UplinkMessage : Type := mkNilableUplink {
  nuplink_GatewayID : string;
  nuplink_Message : option nilable_router_UplinkMessage
}.

Record nilable_StatusMessage : Type := mkNilableStatus {
  nstatus_GatewayID : string;
  nstatus_Message : option Status
}.

(** A message with its pointers set, as a message whose pointers may be
    nil. *)
Definition uplink_set (msg : UplinkMessage) : nilable_UplinkMessage :=
  mkNilableUplink (uplink_GatewayID msg)
    (Some (mkNilableRouterUplink
             (Some (up_GatewayMetadata (uplink_Message msg)))
             (up_Trace (uplink_Message msg)))).

Definition status_set (msg : StatusMessage) : nilable_StatusMessage :=
  mkNilableStatus (status_GatewayID msg) (Some (status_Message msg)).

(** How a call of a handler ends.  A handler that returns has found the
    pointers set, so the message it leaves is one of the records above. *)
Inductive outcome (M : Type) : Type :=
| Returned (h : handled M)
| Panicked (state : Public) (spawned : list goroutine).
Arguments Returned {M} _.
Arguments Panicked {M} _ _.

(** [HandleUplink], lines 146 to 159.  With [msg.Message] nil the panic is
    at line 148 if [get] returned an error, and otherwise at line 151,
    [GetGatewayMetadata] of a nil message being nil; with the metadata nil
    it is at line 151. *)
Definition HandleUplink_nilable (p : Public) (msg : nilable_UplinkMessage)
    (now_since now_bump : Time) : outcome UplinkMessage :=
  let r := get p (nuplink_GatewayID msg) now_since now_bump in
  let info := get_gateway r in
  match nuplink_Message msg with
  | None => Panicked (get_state r) (get_spawned r)
  | Some m =>
      let trace :=
        match get_err r with
        | Some e => WithEvent (nup_Trace m) "unable to get gateway info" [("error", e)]
        | None => nup_Trace m
        end in
      match nup_GatewayMetadata m with
      | None => Panicked (get_state r) (get_spawned r)
      | Some meta =>
          match rx_Gps meta, AntennaLocation info with
          | None, Some loc =>
              Returned
                (mkHandled (get_state r)
                   (mkUplinkMessage (nuplink_GatewayID msg)
                      (mkRouterUplink (mkRxMetadata (Some (gps_of_location loc)))
                         (WithEvent trace "injecting gateway location" [])))
                   (get_spawned r) None)
          | _, _ =>
              Returned
                (mkHandled (get_state r)
                   (mkUplinkMessage (nuplink_GatewayID msg) (mkRouterUplink meta trace))
                   (get_spawned r) None)
          end
      end
  end.

(** [HandleStatus], lines 164 to 188.  With [msg.Message] nil the panic is
    at line 165. *)
Definition HandleStatus_nilable (p : Public) (msg : nilable_StatusMessage)
    (now_since now_bump : Time) : outcome StatusMessage :=
  let r := get p (nstatus_GatewayID msg) now_since now_bump in
  let info := get_gateway r in
  match nstatus_Message msg with
  | None => Panicked (get_state r) (get_spawned r)
  | Some m =>
      let gps :=
        match st_Gps m, AntennaLocation info with
        | None, Some loc => Some (gps_of_location loc)
        | g, _ => g
        end in
      let frequencyPlan :=
        if String.eqb (st_FrequencyPlan m) "" && negb (String.eqb (FrequencyPlan info) "")
        then FrequencyPlan info else st_FrequencyPlan m in
      let platform :=
        if String.eqb (st_Platform m) ""
        then Join (platform_elems (Attributes info)) " " else st_Platform m in
      let description :=
        match String.eqb (st_Description m) "", Description (Attributes info) with
        | true, Some d => d
        | _, _ => st_Description m
        end in
      Returned
        (mkHandled (get_state r)
           (mkStatusMessage (nstatus_GatewayID msg)
              (mkStatus gps frequencyPlan platform description))
           (get_spawned r) None)
  end.

(** *** Histories of store operations *)

Inductive store_op : Type :=
| OpSet (gatewayID : string) (g : Gateway) (now : Time)
| OpSetErr (gatewayID : string) (e : option error) (now : Time)
| OpGet (gatewayID : string) (now_since now_bump : Time)
| OpUnset (gatewayID : string).

Definition apply_op (p : Public) o : Public :=
  match o with
  | OpSet k g now => set p k g now
  | OpSetErr k e now => setErr p k e now
  | OpGet k ns nb => get_state (get p k ns nb)
  | OpUnset k => unset p k
  end.

Definition run_ops (p : Public) ops : Public :=
  fold_left apply_op ops p.

(** [true] when [o] is the completion of a fetch for [k] or its removal. *)
Definition rewrites (k : string) (o : store_op) : bool :=
  match o with
  | OpSet k' _ _ | OpSetErr k' _ _ | OpUnset k' => bool_decide (k' = k)
  | OpGet _ _ _ => false
  end.

(** *** Histories of the permit channel

    [EvTick] is one iteration of the ticker; [EvFetch k] is a goroutine
    running [fetch k] that reaches its receive.  The second component of the
    state lists the fetches that got past the receive, in that order. *)

Inductive limiter_event : Type :=
| EvTick
| EvFetch (gatewayID : string).

Definition limiter_step (s : Public * list string) (ev : limiter_event)
    : Public * list string :=
  match ev with
  | EvTick =>
      match tick (fst s) with
      | (p', Some woken) => (p', snd s ++ [woken])
      | (p', None) => (p', snd s)
      end
  | EvFetch k =>
      match fetch_recv (fst s) k with
      | (p', true) => (p', snd s ++ [k])
      | (p', false) => (p', snd s)
      end
  end.

Definition limiter_run (s : Public * list string) (evs : list limiter_event)
    : Public * list string :=
  fold_left limiter_step evs s.

Definition is_tick (ev : limiter_event) : bool :=
  match ev with EvTick => true | EvFetch _ => false end.

Definition ticks (evs : list limiter_event) : nat := length (List.filter is_tick evs).

(** *** Auxiliary definitions of the statements *)

(** The state [p] with the error stored for [k], if any entry, set to [e]. *)
Definition override_err (p : Public) (k : string) (e : option error) : Public :=
  with_info p (alter (fun i => mkInfo (lastUpdated i) e (gateway i)) k (p_info p)).

(** The platform string in the words of the specification: the non-empty
    ones among brand and model, joined by one space. *)
Definition spec_platform (a : GatewayAttributes) : string :=
  let present := option_list (Brand a) ++ option_list (Model a) in
  Join (List.filter (fun s => negb (String.eqb s "")) present) " ".

(** *** The store operations seen from one gateway *)

(** The gateway a store operation is about. *)
Definition op_key (o : store_op) : string :=
  match o with
  | OpSet k _ _ | OpSetErr k _ _ | OpGet k _ _ | OpUnset k => k
  end.

(** What a store operation makes of the entry of its gateway, given the
    entry it finds there; [expire] is the expiry of the state. *)
Definition op_entry (expire : Duration) (o : store_op) (found : option info)
    : option info :=
  match o with
  | OpSet _ g now => Some (mkInfo now None g)
  | OpSetErr _ e now =>
      match found with
      | Some gtw => Some (mkInfo now e (gateway gtw))
      | None => Some (mkInfo now e zero_Gateway)
      end
  | OpGet _ ns nb =>
      match found with
      | Some i =>
          if negb (expire =? 0)%Z && (expire <? Since ns (lastUpdated i))%Z
          then Some (mkInfo nb (err i) (gateway i))
          else Some i
      | None => None
      end
  | OpUnset _ => None
  end.

(** [true] when [o] puts a new record in the entry of [k] or removes the
    entry: a successful fetch, or the removal. *)
Definition replaces (k : string) (o : store_op) : bool :=
  match o with
  | OpSet k' _ _ | OpUnset k' => bool_decide (k' = k)
  | OpSetErr _ _ _ | OpGet _ _ _ => false
  end.

(** Whether [k] has an entry after a history, given whether it had one
    before: a completed fetch makes one, a removal takes it away. *)
Definition present_after (k : string) (before : bool) (ops : list store_op) : bool :=
  fold_left
    (fun b o =>
       match o with
       | OpSet k' _ _ | OpSetErr k' _ _ => if bool_decide (k' = k) then true else b
       | OpUnset k' => if bool_decide (k' = k) then false else b
       | OpGet _ _ _ => b
       end)
    ops before.

(** The fetches of a history of the permit channel, in the order they reach
    the receive. *)
Definition fetched (evs : list limiter_event) : list string :=
  flat_map (fun ev => match ev with EvFetch k => [k] | EvTick => [] end) evs.

End GatewayInfo.

Arguments mkHandled {float64 altitude M} _ _ _ _.
Arguments h_state {float64 altitude M} _.
Arguments h_msg {float64 altitude M} _.
Arguments h_spawned {float64 altitude M} _.
Arguments h_err {float64 altitude M} _.
Arguments Returned {float64 altitude M} _.
Arguments Panicked {float64 altitude M} _ _.

(** ** Concrete values

    An instance with integers for all four numeric types, used to run the
    definitions. *)

Definition sample_location : @Location Z Z := mkLocation 1%Z 2%Z 3%Z.

Definition sample_gateway : @Gateway Z Z :=
  mkGateway (Some sample_location) "EU_863_870"
    (mkGatewayAttributes (Some "Kerlink") (Some "IoT Station") (Some "rooftop")).

Definition blank_brand_gateway : @Gateway Z Z :=
  mkGateway None "" (mkGatewayAttributes (Some "") (Some "M") None).

Definition sample_chan : chan := Chan 50 50 [].

(** A store with one entry, for ["gw1"], written at time 0. *)
Definition sample_public (expire : Duration) (e : option error) (g : @Gateway Z Z)
    : @Public Z Z :=
  mkPublic expire {[ "gw1" := mkInfo 0%Z e g ]} sample_chan.

Definition sample_status (platform : string) : @StatusMessage Z Z :=
  mkStatusMessage "gw1" (mkStatus None "" platform "").

Definition sample_uplink (gps : option (@GPSMetadata Z Z)) : @UplinkMessage Z Z :=
  mkUplinkMessage "gw1" (mkRouterUplink (mkRxMetadata gps) TraceNil).

Definition to_Z (x : Z) : Z := x.

(** * Properties *)

Section StoreProperties.

Context {float64 altitude : Type}.

Implicit Types (p : @Public float64 altitude).
Implicit Types (g : @Gateway float64 altitude) (i : @info float64 altitude).
Implicit Types (found : @Gateway float64 altitude * option error).
Implicit Types (o : @store_op float64 altitude) (ops : list (@store_op float64 altitude)).

(** ** Basic equations of the store operations *)

Lemma lookup_set p k g now :
  p_info (set p k g now) !! k = Some (mkInfo now None g).
Proof. unfold set; simpl. apply lookup_insert_eq. Qed.

Lemma lookup_setErr_present p k e now i :
  p_info p !! k = Some i ->
  p_info (setErr p k e now) !! k = Some (mkInfo now e (gateway i)).
Proof. intros Hi. unfold setErr. rewrite Hi; simpl. apply lookup_insert_eq. Qed.

Lemma lookup_setErr_absent p k e now :
  p_info p !! k = None ->
  p_info (setErr p k e now) !! k = Some (mkInfo now e zero_Gateway).
Proof. intros Hi. unfold setErr. rewrite Hi; simpl. apply lookup_insert_eq. Qed.

Lemma lookup_unset p k : p_info (unset p k) !! k = None.
Proof. unfold unset; simpl. apply lookup_delete_eq. Qed.

(** Whatever the clock says, [get] answers with the stored record and the
    stored error. *)
Lemma get_present p k ns nb i :
  p_info p !! k = Some i ->
  get_gateway (get p k ns nb) = gateway i /\ get_err (get p k ns nb) = err i.
Proof. intros Hi. unfold get. rewrite Hi. destruct (expired p i ns); simpl; auto. Qed.

Lemma get_missing p k ns nb :
  p_info p !! k = None -> get p k ns nb = mkGetResult p zero_Gateway None [].
Proof. intros Hi. unfold get. now rewrite Hi. Qed.

(** [get] changes at most the time stamp of the entry it reads. *)
Lemma get_state_lookup p k ns nb i :
  p_info p !! k = Some i ->
  exists t, p_info (get_state (get p k ns nb)) !! k = Some (mkInfo t (err i) (gateway i)).
Proof.
  intros Hi. unfold get. rewrite Hi. destruct (expired p i ns); simpl.
  - eexists. apply lookup_insert_eq.
  - exists (lastUpdated i). rewrite Hi. now destruct i.
Qed.

(** ** Frame lemmas: an operation on [x] leaves every other key alone *)

Lemma set_other p x y g now :
  x <> y -> p_info (set p x g now) !! y = p_info p !! y.
Proof. intros Hne. unfold set; simpl. now apply lookup_insert_ne. Qed.

Lemma setErr_other p x y e now :
  x <> y -> p_info (setErr p x e now) !! y = p_info p !! y.
Proof.
  intros Hne. unfold setErr.
  destruct (p_info p !! x); simpl; now apply lookup_insert_ne.
Qed.

Lemma get_other p x y ns nb :
  x <> y -> p_info (get_state (get p x ns nb)) !! y = p_info p !! y.
Proof.
  intros Hne. unfold get.
  destruct (p_info p !! x) as [i|]; [|reflexivity].
  destruct (expired p i ns); simpl; [|reflexivity].
  now apply lookup_insert_ne.
Qed.

Lemma unset_other p x y :
  x <> y -> p_info (unset p x) !! y = p_info p !! y.
Proof. intros Hne. unfold unset; simpl. now apply lookup_delete_ne. Qed.

(** An operation that is neither the completion of a fetch for [k] nor its
    removal keeps the record and the error stored for [k]. *)
Lemma apply_op_keeps p o k e g :
  rewrites k o = false ->
  (exists t, p_info p !! k = Some (mkInfo t e g)) ->
  exists t, p_info (apply_op p o) !! k = Some (mkInfo t e g).
Proof.
  intros Hrw [t Ht].
  destruct o as [k' g' now|k' e' now|k' ns nb|k']; unfold rewrites in Hrw; unfold apply_op.
  - apply bool_decide_eq_false in Hrw. exists t. now rewrite set_other.
  - apply bool_decide_eq_false in Hrw. exists t. now rewrite setErr_other.
  - destruct (decide (k' = k)) as [->|Hne].
    + destruct (get_state_lookup p k ns nb _ Ht) as [t' Ht']. now exists t'.
    + exists t. now rewrite get_other.
  - apply bool_decide_eq_false in Hrw. exists t. now rewrite unset_other.
Qed.

Lemma run_ops_keeps ops : forall p k e g,
  forallb (fun o => negb (rewrites k o)) ops = true ->
  (exists t, p_info p !! k = Some (mkInfo t e g)) ->
  exists t, p_info (run_ops p ops) !! k = Some (mkInfo t e g).
Proof.
  induction ops as [|o ops IH]; intros p k e g Hall Hp; simpl in *.
  - exact Hp.
  - apply andb_true_iff in Hall as [Ho Hall].
    apply negb_true_iff in Ho.
    apply IH; [exact Hall|]. now apply apply_op_keeps.
Qed.

(** ** The claims about the store *)

(** C1: a fetch whose lookup failed ends in [setErr], which keeps the record
    of an existing entry and replaces its time stamp and error, so that [get] then returns the old record with
    the new error; with no entry, it creates one with the zero record and
    the error, which is what [get] then returns. *)
Theorem setErr_keeps_last_record p k e now ns nb :
  (forall g e', fetch_lookup p k (g, Some e') now = (setErr p k (Some e') now, Some e')) /\
  (forall i,
      p_info p !! k = Some i ->
      p_info (setErr p k e now) !! k = Some (mkInfo now e (gateway i)) /\
      get_gateway (get (setErr p k e now) k ns nb) = gateway i /\
      get_err (get (setErr p k e now) k ns nb) = e) /\
  (p_info p !! k = None ->
      p_info (setErr p k e now) !! k = Some (mkInfo now e zero_Gateway) /\
      get_gateway (get (setErr p k e now) k ns nb) = zero_Gateway /\
      get_err (get (setErr p k e now) k ns nb) = e).
Proof.
  split; [reflexivity|]. split.
  - intros i Hi.
    pose proof (lookup_setErr_present p k e now i Hi) as Hs.
    split; [exact Hs|]. exact (get_present _ k ns nb _ Hs).
  - intros Hi.
    pose proof (lookup_setErr_absent p k e now Hi) as Hs.
    split; [exact Hs|]. exact (get_present _ k ns nb _ Hs).
Qed.

(** C3, as the code has it: a fetch whose lookup succeeded ends in [set],
    which replaces the entry by the fetched record, the current time and no
    error; after it, and after any further operations that neither complete
    another fetch for the same gateway nor remove it (reads at any time,
    expired or not, and anything on other gateways), [get] returns that
    record and no error. *)
Theorem set_then_get p k g now ops ns nb :
  forallb (fun o => negb (rewrites k o)) ops = true ->
  fetch_lookup p k (g, None) now = (set p k g now, None) /\
  p_info (set p k g now) !! k = Some (mkInfo now None g) /\
  get_gateway (get (run_ops (set p k g now) ops) k ns nb) = g /\
  get_err (get (run_ops (set p k g now) ops) k ns nb) = None.
Proof.
  intros Hops. split; [reflexivity|]. split; [apply lookup_set|].
  destruct (run_ops_keeps ops (set p k g now) k None g Hops) as [t Ht].
  - exists now. apply lookup_set.
  - exact (get_present _ k ns nb _ Ht).
Qed.

(** C4: for a gateway with no entry [get] returns the zero record and no
    error, starts nothing and leaves the state alone; this is the case in
    the state [NewPublic] returns and after [unset], so a read after a
    removal answers exactly as a read of a gateway never fetched. *)
Theorem get_without_entry p k ns nb :
  (p_info p !! k = None -> get p k ns nb = mkGetResult p zero_Gateway None []) /\
  get (unset p k) k ns nb = mkGetResult (unset p k) zero_Gateway None [] /\
  (forall srv burst p0 ns' nb',
      NewPublic srv burst = Some p0 ->
      get p0 k ns' nb' = mkGetResult p0 zero_Gateway None [] /\
      get_gateway (get (unset p k) k ns nb) = get_gateway (get p0 k ns' nb') /\
      get_err (get (unset p k) k ns nb) = get_err (get p0 k ns' nb') /\
      get_spawned (get (unset p k) k ns nb) = get_spawned (get p0 k ns' nb')).
Proof.
  assert (Hu : get (unset p k) k ns nb = mkGetResult (unset p k) zero_Gateway None [])
    by (apply get_missing, lookup_unset).
  split; [apply get_missing|]. split; [exact Hu|].
  intros srv burst p0 ns' nb' Hnew.
  assert (H0 : get p0 k ns' nb' = mkGetResult p0 zero_Gateway None []).
  { apply get_missing. unfold NewPublic in Hnew.
    destruct (make_chan burst) as [c|]; simpl in Hnew; [|discriminate].
    destruct (fill (Z.to_nat burst) c) as [c'|]; simpl in Hnew; [|discriminate].
    injection Hnew as <-. apply lookup_empty. }
  split; [exact H0|]. rewrite Hu, H0. auto.
Qed.

(** C9: [set] and [setErr] insert whatever the store holds, so a fetch that
    completes after the entry of its gateway was removed puts an entry
    back. *)
Theorem completed_fetch_reinserts p k g e found now :
  p_info (set (unset p k) k g now) !! k = Some (mkInfo now None g) /\
  p_info (setErr (unset p k) k e now) !! k = Some (mkInfo now e zero_Gateway) /\
  is_Some (p_info (set p k g now) !! k) /\
  is_Some (p_info (setErr p k e now) !! k) /\
  is_Some (p_info (fst (fetch_lookup (unset p k) k found now)) !! k).
Proof.
  split; [apply lookup_set|].
  split; [apply lookup_setErr_absent, lookup_unset|].
  split; [rewrite lookup_set; eauto|].
  split.
  - destruct (p_info p !! k) as [i|] eqn:Hi.
    + erewrite lookup_setErr_present by eassumption. eauto.
    + rewrite lookup_setErr_absent by assumption. eauto.
  - unfold fetch_lookup. destruct (snd found) as [e'|]; cbn [fst].
    + rewrite lookup_setErr_absent by apply lookup_unset. eauto.
    + rewrite lookup_set. eauto.
Qed.

(** C10: a store operation on gateway [x] leaves the entry of every other
    gateway [y] (or its absence) as it was. *)
Theorem store_ops_frame p x y g e now ns nb :
  x <> y ->
  p_info (set p x g now) !! y = p_info p !! y /\
  p_info (setErr p x e now) !! y = p_info p !! y /\
  p_info (get_state (get p x ns nb)) !! y = p_info p !! y /\
  p_info (unset p x) !! y = p_info p !! y.
Proof.
  intros Hne.
  split; [now apply set_other|].
  split; [now apply setErr_other|].
  split; [now apply get_other|now apply unset_other].
Qed.

End StoreProperties.

Section RefreshProperties.

Context {float64 altitude : Type}.

Implicit Types (p : @Public float64 altitude) (i : @info float64 altitude).

Lemma expired_true p i ns :
  expired p i ns = true <->
  p_expire p <> 0%Z /\ (p_expire p < Since ns (lastUpdated i))%Z.
Proof.
  unfold expired. rewrite andb_true_iff, negb_true_iff, Z.eqb_neq, Z.ltb_lt.
  reflexivity.
Qed.

(** Expiry is off in the state [NewPublic] returns, until [WithExpire]. *)
Lemma NewPublic_expire srv burst p :
  NewPublic srv burst = Some p -> p_expire p = 0%Z.
Proof.
  unfold NewPublic. intros Hnew.
  destruct (make_chan burst) as [c|]; simpl in Hnew; [|discriminate].
  destruct (fill (Z.to_nat burst) c) as [c'|]; simpl in Hnew; [|discriminate].
  now injection Hnew as <-.
Qed.

Lemma WithExpire_expire p d :
  p_expire (WithExpire p d) = d /\ p_info (WithExpire p d) = p_info p.
Proof. now split. Qed.

Lemma get_fresh p k ns nb i :
  p_info p !! k = Some i -> expired p i ns = false ->
  get p k ns nb = mkGetResult p (gateway i) (err i) [].
Proof. intros Hi Hx. unfold get. now rewrite Hi, Hx. Qed.

Lemma get_stale p k ns nb i :
  p_info p !! k = Some i -> expired p i ns = true ->
  get p k ns nb =
    mkGetResult (with_info p (<[k := mkInfo nb (err i) (gateway i)]> (p_info p)))
                (gateway i) (err i) [GoFetch k].
Proof. intros Hi Hx. unfold get. now rewrite Hi, Hx. Qed.

(** [get] starts either nothing or one fetch of the gateway it was asked
    for; when it starts nothing it leaves the state as it was. *)
Lemma get_spawned_cases p k ns nb :
  (get_spawned (get p k ns nb) = [] /\ get_state (get p k ns nb) = p) \/
  get_spawned (get p k ns nb) = [GoFetch k].
Proof.
  unfold get. destruct (p_info p !! k) as [i|]; [|now left].
  destruct (expired p i ns); [now right|now left].
Qed.

(** C2, as the code has it: [get] starts a refresh exactly when there is an
    entry, the expiry is not zero and the entry is older than the expiry;
    it then stamps the entry with the current time and still returns the
    stored record and error; a second [get] whose clock is at most one
    expiry past that stamp starts no second fetch; with the expiry at zero
    [get] starts nothing and leaves the state alone. *)
Theorem get_refresh_policy p k ns nb :
  (get_spawned (get p k ns nb) = [GoFetch k] <->
   exists i, p_info p !! k = Some i /\ p_expire p <> 0%Z /\
             (p_expire p < Since ns (lastUpdated i))%Z) /\
  (get_spawned (get p k ns nb) <> [GoFetch k] ->
   get_spawned (get p k ns nb) = [] /\ get_state (get p k ns nb) = p) /\
  (forall i, p_info p !! k = Some i ->
     get_gateway (get p k ns nb) = gateway i /\
     get_err (get p k ns nb) = err i /\
     (get_spawned (get p k ns nb) = [GoFetch k] ->
      p_info (get_state (get p k ns nb)) !! k = Some (mkInfo nb (err i) (gateway i)) /\
      forall ns2 nb2,
        (Since ns2 nb <= p_expire p)%Z ->
        get_spawned (get (get_state (get p k ns nb)) k ns2 nb2) = [])) /\
  (p_expire p = 0%Z ->
   get_spawned (get p k ns nb) = [] /\ get_state (get p k ns nb) = p).
Proof.
  split; [split|split; [|split]].
  - intros Hsp. unfold get in Hsp.
    destruct (p_info p !! k) as [i|] eqn:Hi; [|discriminate].
    destruct (expired p i ns) eqn:Hx; [|discriminate].
    exists i. split; [reflexivity|]. now apply expired_true.
  - intros (i & Hi & Hx). apply expired_true in Hx.
    now rewrite (get_stale p k ns nb i Hi Hx).
  - intros Hno. destruct (get_spawned_cases p k ns nb) as [H|H]; [exact H|contradiction].
  - intros i Hi.
    destruct (expired p i ns) eqn:Hx.
    + rewrite (get_stale p k ns nb i Hi Hx). cbn [get_gateway get_err get_spawned get_state].
      split; [reflexivity|]. split; [reflexivity|]. intros _.
      split; [simpl; apply lookup_insert_eq|].
      intros ns2 nb2 Hle.
      erewrite get_fresh; [reflexivity|simpl; apply lookup_insert_eq|].
      unfold expired; simpl.
      apply andb_false_iff. right. apply Z.ltb_ge. exact Hle.
    + rewrite (get_fresh p k ns nb i Hi Hx). cbn [get_gateway get_err get_spawned].
      split; [reflexivity|]. split; [reflexivity|]. discriminate.
  - intros Hz. unfold get. destruct (p_info p !! k) as [i|]; [|now split].
    unfold expired. rewrite Hz. now split.
Qed.

End RefreshProperties.

Section LimiterProperties.

Context {float64 altitude : Type}.

Implicit Types (p : @Public float64 altitude).
Implicit Types (s : @Public float64 altitude * list string).
Implicit Types (found : @Gateway float64 altitude * option error).

Lemma fill_buffers (n : nat) : forall cap len,
  len + n <= cap -> fill n (Chan cap len []) = Some (Chan cap (len + n) []).
Proof.
  induction n as [|n IH]; intros cap len Hle; simpl.
  - now rewrite Nat.add_0_r.
  - unfold chan_send; simpl.
    destruct (Nat.ltb_spec len cap) as [_|Hge]; [|lia].
    rewrite IH by lia. do 2 f_equal. lia.
Qed.

Lemma NewPublic_ok srv (burst : Z) :
  (0 <= burst)%Z ->
  NewPublic srv burst =
    Some (mkPublic (float64 := float64) (altitude := altitude) 0%Z ∅
            (Chan (Z.to_nat burst) (Z.to_nat burst) [])).
Proof.
  intros Hb. unfold NewPublic, make_chan.
  destruct (Z.ltb_spec burst 0) as [Hlt|_]; [lia|]. simpl.
  rewrite fill_buffers by lia. reflexivity.
Qed.

Lemma NewPublic_negative srv (burst : Z) :
  (burst < 0)%Z -> NewPublic (float64 := float64) (altitude := altitude) srv burst = None.
Proof.
  intros Hb. unfold NewPublic, make_chan.
  destruct (Z.ltb_spec burst 0) as [_|Hge]; [reflexivity|lia].
Qed.

(** One event: the capacity stays, the buffer stays within it, and a fetch
    gets past its receive only by taking a buffered permit or the permit of
    a tick. *)
Lemma limiter_step_bound s ev :
  let s' := limiter_step s ev in
  chan_cap (p_available (fst s')) = chan_cap (p_available (fst s)) /\
  (chan_len (p_available (fst s)) <= chan_cap (p_available (fst s)) ->
   chan_len (p_available (fst s')) <= chan_cap (p_available (fst s'))) /\
  length (snd s') + chan_len (p_available (fst s'))
    <= length (snd s) + chan_len (p_available (fst s)) + (if is_tick ev then 1 else 0).
Proof.
  destruct s as [p st]. destruct p as [ex m [cap len q]].
  destruct ev as [|k]; simpl.
  - unfold tick, chan_send; simpl. destruct q as [|r q]; simpl.
    + destruct (Nat.ltb_spec len cap); simpl; repeat split; lia.
    + rewrite length_app; simpl. repeat split; lia.
  - unfold fetch_recv, chan_recv; simpl. destruct len as [|n]; simpl.
    + repeat split; lia.
    + rewrite length_app; simpl. repeat split; lia.
Qed.

Lemma limiter_run_bound (evs : list limiter_event) : forall s,
  let s' := limiter_run s evs in
  chan_cap (p_available (fst s')) = chan_cap (p_available (fst s)) /\
  (chan_len (p_available (fst s)) <= chan_cap (p_available (fst s)) ->
   chan_len (p_available (fst s')) <= chan_cap (p_available (fst s'))) /\
  length (snd s') + chan_len (p_available (fst s'))
    <= length (snd s) + chan_len (p_available (fst s)) + ticks evs.
Proof.
  induction evs as [|ev evs IH]; intros s; simpl.
  - unfold ticks; simpl. repeat split; lia.
  - destruct (IH (limiter_step s ev)) as (Hc & Hl & Hb).
    destruct (limiter_step_bound s ev) as (Hc1 & Hl1 & Hb1).
    unfold limiter_run in *. simpl.
    assert (Ht : ticks (ev :: evs) = (if is_tick ev then 1 else 0) + ticks evs).
    { unfold ticks. simpl. destruct (is_tick ev); reflexivity. }
    rewrite Ht. repeat split.
    + congruence.
    + intros H. apply Hl, Hl1, H.
    + lia.
Qed.

(** Fetches that find enough permits buffered all get past the receive. *)
Lemma fetches_with_permits (ids : list string) : forall p st,
  length ids <= chan_len (p_available p) ->
  limiter_run (p, st) (map EvFetch ids) =
    (with_available p (Chan (chan_cap (p_available p))
                            (chan_len (p_available p) - length ids)
                            (chan_recvq (p_available p))),
     st ++ ids).
Proof.
  induction ids as [|k ids IH]; intros p st Hle; simpl in *.
  - rewrite Nat.sub_0_r, app_nil_r. destruct p as [ex m [cap len q]]. reflexivity.
  - destruct p as [ex m [cap len q]]. simpl in *.
    destruct len as [|n]; [lia|].
    unfold limiter_run in *. simpl.
    unfold fetch_recv, chan_recv. simpl.
    rewrite IH by (simpl; lia). simpl.
    unfold with_available. simpl. now rewrite <- app_assoc.
Qed.

(** With nothing buffered and no tick, no fetch gets past the receive. *)
Lemma no_tick_no_start (evs : list limiter_event) : forall s,
  chan_len (p_available (fst s)) = 0 -> ticks evs = 0 ->
  snd (limiter_run s evs) = snd s.
Proof.
  induction evs as [|ev evs IH]; intros s Hlen Hticks; [reflexivity|].
  destruct ev as [|k]; [discriminate|].
  unfold limiter_run in *. simpl.
  destruct s as [p st]. destruct p as [ex m [cap len q]]. simpl in *. subst len.
  unfold fetch_recv, chan_recv. simpl.
  rewrite IH; [reflexivity|reflexivity|exact Hticks].
Qed.

(** C5: the channel starts with [burst] permits and never holds more; a
    tick with no fetch parked adds one permit unless the buffer is full, and
    then changes nothing; a tick with a fetch parked gives its permit to the
    oldest parked fetch; a fetch takes one permit at its receive and none
    after it; so [burst] fetches get past the receive without waiting, the
    next one stays parked as long as there is no tick, and the next tick
    lets it through.  In every history the fetches that got past the
    receive number at most [burst] plus the ticks. *)
Theorem limiter_invariant srv (burst : Z) :
  (0 <= burst)%Z ->
  exists p0 : @Public float64 altitude,
    NewPublic srv burst = Some p0 /\
    p_available p0 = Chan (Z.to_nat burst) (Z.to_nat burst) [] /\
    (forall evs,
        chan_len (p_available (fst (limiter_run (p0, []) evs))) <= Z.to_nat burst /\
        length (snd (limiter_run (p0, []) evs)) <= Z.to_nat burst + ticks evs) /\
    (forall p cap len,
        p_available p = Chan cap len [] ->
        tick p = if len <? cap
                 then (with_available p (Chan cap (S len) []), None)
                 else (p, None)) /\
    (forall p cap len r q,
        p_available p = Chan cap len (r :: q) ->
        tick p = (with_available p (Chan cap len q), Some r)) /\
    (forall p k cap n q found now,
        p_available p = Chan cap (S n) q ->
        fetch_recv p k = (with_available p (Chan cap n q), true) /\
        p_available (fst (fetch_lookup (with_available p (Chan cap n q)) k found now))
          = Chan cap n q) /\
    (forall ids x,
        length ids = Z.to_nat burst ->
        snd (limiter_run (p0, []) (map EvFetch ids)) = ids /\
        (forall more, ticks more = 0 ->
           snd (limiter_run (p0, []) (map EvFetch ids ++ EvFetch x :: more)) = ids) /\
        snd (limiter_run (p0, []) (map EvFetch ids ++ [EvFetch x; EvTick])) = ids ++ [x]).
Proof.
  intros Hb. eexists. split; [apply NewPublic_ok, Hb|].
  split; [reflexivity|].
  split.
  { intros evs.
    destruct (limiter_run_bound evs
                (mkPublic (float64 := float64) (altitude := altitude) 0%Z ∅
                   (Chan (Z.to_nat burst) (Z.to_nat burst) []), []))
      as (Hc & Hl & Hbd).
    simpl in *. specialize (Hl (le_n _)). split; lia. }
  split.
  { intros p cap len Hp. unfold tick, chan_send. rewrite Hp. simpl.
    now destruct (len <? cap). }
  split.
  { intros p cap len r q Hp. unfold tick, chan_send. rewrite Hp. reflexivity. }
  split.
  { intros p k cap n q found now Hp. split.
    - unfold fetch_recv, chan_recv. rewrite Hp. reflexivity.
    - unfold fetch_lookup, set, setErr.
      destruct (snd found); simpl; [|reflexivity].
      now destruct (p_info p !! k). }
  intros ids x Hlen.
  assert (Hrun : forall st, limiter_run
            (mkPublic (float64 := float64) (altitude := altitude) 0%Z ∅
               (Chan (Z.to_nat burst) (Z.to_nat burst) []), st) (map EvFetch ids)
          = (mkPublic 0%Z ∅ (Chan (Z.to_nat burst) 0 []), st ++ ids)).
  { intros st. rewrite fetches_with_permits by (simpl; lia).
    simpl. unfold with_available. simpl. now rewrite Hlen, Nat.sub_diag. }
  split; [now rewrite Hrun|].
  split.
  - intros more Hmore. unfold limiter_run in *. rewrite fold_left_app, Hrun.
    apply (no_tick_no_start (EvFetch x :: more)); [reflexivity|exact Hmore].
  - unfold limiter_run in *. rewrite fold_left_app, Hrun. reflexivity.
Qed.

End LimiterProperties.

Section EnrichmentProperties.

Context {float64 float32 altitude int32 : Type}.
Context (to_float32 : float64 -> float32) (to_int32 : altitude -> int32).

Implicit Types (p : @Public float64 altitude).
Implicit Types (um : @UplinkMessage float32 int32) (sm : @StatusMessage float32 int32).
Implicit Types (cm : ConnectMessage) (dm : DisconnectMessage).

(** The error stored for a gateway has no part in the record [get] returns
    nor in the decision to refresh. *)
Lemma get_override_err p k e ns nb :
  get_gateway (get (override_err p k e) k ns nb) = get_gateway (get p k ns nb) /\
  get_spawned (get (override_err p k e) k ns nb) = get_spawned (get p k ns nb).
Proof.
  unfold get, override_err. cbn [p_info with_info].
  rewrite lookup_alter_eq.
  destruct (p_info p !! k) as [i|]; cbn [fmap option_fmap option_map]; [|now split].
  unfold expired. cbn [p_expire with_info lastUpdated].
  destruct (negb (p_expire p =? 0)%Z && (p_expire p <? Since ns (lastUpdated i))%Z);
    now split.
Qed.

Lemma Join_two (a b sep : string) : Join [a; b] sep = a +:+ sep +:+ b.
Proof. reflexivity. Qed.

(** On a message whose pointers are set, the handlers on messages whose
    pointers may be nil are the handlers above. *)
Lemma HandleUplink_nilable_set p um ns nb :
  HandleUplink_nilable to_float32 to_int32 p (uplink_set um) ns nb
  = Returned (HandleUplink to_float32 to_int32 p um ns nb).
Proof.
  unfold HandleUplink_nilable, HandleUplink, uplink_set. cbv zeta.
  cbn [nuplink_GatewayID nuplink_Message nup_GatewayMetadata nup_Trace].
  destruct (rx_Gps _); [reflexivity|]. destruct (AntennaLocation _); reflexivity.
Qed.

Lemma HandleStatus_nilable_set p sm ns nb :
  HandleStatus_nilable to_float32 to_int32 p (status_set sm) ns nb
  = Returned (HandleStatus to_float32 to_int32 p sm ns nb).
Proof. reflexivity. Qed.

(** They return only on such a message. *)
Lemma HandleUplink_nilable_returned p (m : @nilable_UplinkMessage float32 int32) ns nb h :
  HandleUplink_nilable to_float32 to_int32 p m ns nb = Returned h ->
  exists um, m = uplink_set um /\ h = HandleUplink to_float32 to_int32 p um ns nb.
Proof.
  destruct m as [k [[[meta|] tr]|]]; unfold HandleUplink_nilable; cbv zeta;
    cbn [nuplink_GatewayID nuplink_Message nup_GatewayMetadata nup_Trace];
    intros Hret; try discriminate Hret.
  exists (mkUplinkMessage k (mkRouterUplink meta tr)). split; [reflexivity|].
  pose proof (HandleUplink_nilable_set p (mkUplinkMessage k (mkRouterUplink meta tr)) ns nb)
    as Hset.
  unfold HandleUplink_nilable, uplink_set in Hset. cbv zeta in Hset.
  cbn [nuplink_GatewayID nuplink_Message nup_GatewayMetadata nup_Trace
       uplink_GatewayID uplink_Message up_GatewayMetadata up_Trace] in Hset.
  rewrite Hset in Hret. now injection Hret as <-.
Qed.

Lemma HandleStatus_nilable_returned p (m : @nilable_StatusMessage float32 int32) ns nb h :
  HandleStatus_nilable to_float32 to_int32 p m ns nb = Returned h ->
  exists sm, m = status_set sm /\ h = HandleStatus to_float32 to_int32 p sm ns nb.
Proof.
  destruct m as [k [st|]]; unfold HandleStatus_nilable; cbv zeta;
    cbn [nstatus_GatewayID nstatus_Message]; intros Hret; [|discriminate Hret].
  exists (mkStatusMessage k st). split; [reflexivity|].
  now injection Hret as <-.
Qed.

Lemma fetch_lookup_result p k (found : @Gateway float64 altitude * option error) now :
  snd (fetch_lookup p k found now) = snd found.
Proof. unfold fetch_lookup. now destruct (snd found). Qed.

(** The goroutine of [HandleConnect], when a permit is buffered: the outcome
    of its fetch goes to the log and nowhere else. *)
Lemma connect_goroutine_logs p k (found : @Gateway float64 altitude * option error)
    now cap n q :
  p_available p = Chan cap (S n) q ->
  connect_goroutine p k found now =
    Some (fst (fetch_lookup (with_available p (Chan cap n q)) k found now),
          connect_log k (snd found)).
Proof.
  intros Hp. unfold connect_goroutine, fetch, fetch_recv, chan_recv. rewrite Hp.
  cbn [chan_len chan_cap chan_recvq].
  rewrite <- (fetch_lookup_result (with_available p (Chan cap n q)) k found now).
  now destruct (fetch_lookup (with_available p (Chan cap n q)) k found now).
Qed.

(** C6: the handlers leave alone every field the message already carries:
    the location when it is set, and the frequency plan, the platform and
    the description when they are not empty. *)
Theorem enrichment_is_additive p um sm ns nb :
  let um' := h_msg (HandleUplink to_float32 to_int32 p um ns nb) in
  let st := status_Message sm in
  let st' := status_Message (h_msg (HandleStatus to_float32 to_int32 p sm ns nb)) in
  (is_Some (rx_Gps (up_GatewayMetadata (uplink_Message um))) ->
   up_GatewayMetadata (uplink_Message um') = up_GatewayMetadata (uplink_Message um)) /\
  uplink_GatewayID um' = uplink_GatewayID um /\
  (is_Some (st_Gps st) -> st_Gps st' = st_Gps st) /\
  (st_FrequencyPlan st <> "" -> st_FrequencyPlan st' = st_FrequencyPlan st) /\
  (st_Platform st <> "" -> st_Platform st' = st_Platform st) /\
  (st_Description st <> "" -> st_Description st' = st_Description st) /\
  status_GatewayID (h_msg (HandleStatus to_float32 to_int32 p sm ns nb))
    = status_GatewayID sm.
Proof.
  cbv zeta. split; [|split; [|split; [|split; [|split; [|split]]]]].
  - intros [gps Hgps]. unfold HandleUplink. cbv zeta. rewrite Hgps. reflexivity.
  - unfold HandleUplink. cbv zeta.
    destruct (rx_Gps _); [reflexivity|].
    destruct (AntennaLocation _); reflexivity.
  - intros [gps Hgps]. unfold HandleStatus. cbv zeta.
    cbn [h_msg status_Message st_Gps]. rewrite Hgps. reflexivity.
  - intros Hne. unfold HandleStatus. cbv zeta.
    cbn [h_msg status_Message st_FrequencyPlan].
    apply String.eqb_neq in Hne. rewrite Hne. reflexivity.
  - intros Hne. unfold HandleStatus. cbv zeta.
    cbn [h_msg status_Message st_Platform].
    apply String.eqb_neq in Hne. rewrite Hne. reflexivity.
  - intros Hne. unfold HandleStatus. cbv zeta.
    cbn [h_msg status_Message st_Description].
    apply String.eqb_neq in Hne. rewrite Hne. reflexivity.
  - reflexivity.
Qed.

(** C7, as the code has it: for a status message with no platform, the
    platform written is [strings.Join] with one space of the brand and the
    model that are present in the record [get] returned, the brand first.
    An absent attribute adds nothing; when every attribute present is not
    empty this is the string of the specification. *)
Theorem platform_joins_present_attributes p sm ns nb :
  st_Platform (status_Message sm) = "" ->
  let a := Attributes (get_gateway (get p (status_GatewayID sm) ns nb)) in
  let platform :=
    st_Platform (status_Message (h_msg (HandleStatus to_float32 to_int32 p sm ns nb))) in
  platform = Join (option_list (Brand a) ++ option_list (Model a)) " " /\
  platform = match Brand a, Model a with
             | Some b, Some m => b +:+ " " +:+ m
             | Some b, None => b
             | None, Some m => m
             | None, None => ""
             end /\
  ((forall b, Brand a = Some b -> b <> "") ->
   (forall m, Model a = Some m -> m <> "") ->
   platform = spec_platform a).
Proof.
  intros Hempty. cbv zeta.
  unfold HandleStatus. cbv zeta. cbn [h_msg status_Message st_Platform].
  rewrite Hempty. cbn [String.eqb].
  generalize (Attributes (get_gateway (get p (status_GatewayID sm) ns nb))).
  intros a. unfold platform_elems, spec_platform.
  destruct (Brand a) as [b|] eqn:Hb, (Model a) as [m|] eqn:Hm;
    cbn [option_list option_rect app].
  - split; [reflexivity|]. split; [reflexivity|].
    intros Hbne Hmne. specialize (Hbne b eq_refl). specialize (Hmne m eq_refl).
    apply String.eqb_neq in Hbne, Hmne. cbn [List.filter]. rewrite Hbne, Hmne. reflexivity.
  - split; [reflexivity|]. split; [reflexivity|].
    intros Hbne _. specialize (Hbne b eq_refl).
    apply String.eqb_neq in Hbne. cbn [List.filter]. rewrite Hbne. reflexivity.
  - split; [reflexivity|]. split; [reflexivity|].
    intros _ Hmne. specialize (Hmne m eq_refl).
    apply String.eqb_neq in Hmne. cbn [List.filter]. rewrite Hmne. reflexivity.
  - split; [reflexivity|]. split; reflexivity.
Qed.

(** C8, as the code has it: on a message whose pointers are set the four
    handlers return no error, whatever the state and the message.  The
    goroutine of [HandleConnect] turns the outcome of its fetch into a log
    entry.  In [HandleUplink] an error returned by [get] becomes a trace
    event of the message and changes nothing else of it; in [HandleStatus]
    the message that results is the same whatever error is stored.  On
    messages whose pointers may be nil, [HandleUplink] and [HandleStatus]
    return, and then without error, exactly when the pointers are set. *)
Theorem handlers_return_nil p cm dm um sm ns nb :
  h_err (HandleConnect p cm) = None /\
  h_err (HandleDisconnect p dm) = None /\
  h_err (HandleUplink to_float32 to_int32 p um ns nb) = None /\
  h_err (HandleStatus to_float32 to_int32 p sm ns nb) = None /\
  (forall k found now cap n q,
      p_available p = Chan cap (S n) q ->
      connect_goroutine p k found now =
        Some (fst (fetch_lookup (with_available p (Chan cap n q)) k found now),
              connect_log k (snd found))) /\
  (forall e,
      get_err (get p (uplink_GatewayID um) ns nb) = Some e ->
      let t := WithEvent (up_Trace (uplink_Message um))
                 "unable to get gateway info" [("error", e)] in
      let tr := up_Trace (uplink_Message (h_msg (HandleUplink to_float32 to_int32 p um ns nb))) in
      tr = t \/ tr = WithEvent t "injecting gateway location" []) /\
  (forall e',
      let um' := h_msg (HandleUplink to_float32 to_int32 p um ns nb) in
      let um'' := h_msg (HandleUplink to_float32 to_int32
                           (override_err p (uplink_GatewayID um) e') um ns nb) in
      uplink_GatewayID um'' = uplink_GatewayID um' /\
      up_GatewayMetadata (uplink_Message um'') = up_GatewayMetadata (uplink_Message um')) /\
  (forall e',
      h_msg (HandleStatus to_float32 to_int32
               (override_err p (status_GatewayID sm) e') sm ns nb)
      = h_msg (HandleStatus to_float32 to_int32 p sm ns nb)) /\
  HandleUplink_nilable to_float32 to_int32 p (uplink_set um) ns nb
    = Returned (HandleUplink to_float32 to_int32 p um ns nb) /\
  HandleStatus_nilable to_float32 to_int32 p (status_set sm) ns nb
    = Returned (HandleStatus to_float32 to_int32 p sm ns nb) /\
  (forall (m : @nilable_UplinkMessage float32 int32) h,
      HandleUplink_nilable to_float32 to_int32 p m ns nb = Returned h ->
      h_err h = None /\ exists um', m = uplink_set um') /\
  (forall (m : @nilable_StatusMessage float32 int32) h,
      HandleStatus_nilable to_float32 to_int32 p m ns nb = Returned h ->
      h_err h = None /\ exists sm', m = status_set sm').
Proof.
  split; [reflexivity|]. split; [reflexivity|].
  split.
  { unfold HandleUplink. cbv zeta.
    destruct (rx_Gps _); [reflexivity|]. destruct (AntennaLocation _); reflexivity. }
  split; [reflexivity|].
  split; [intros k found now cap n q Hp; now apply connect_goroutine_logs|].
  split.
  { intros e He. cbv zeta. unfold HandleUplink. cbv zeta. rewrite He.
    destruct (rx_Gps _); [now left|].
    destruct (AntennaLocation _); [now right|now left]. }
  split.
  { intros e'. cbv zeta. unfold HandleUplink. cbv zeta.
    destruct (get_override_err p (uplink_GatewayID um) e' ns nb) as [-> _].
    destruct (rx_Gps _); [now split|].
    destruct (AntennaLocation _); now split. }
  split.
  { intros e'. unfold HandleStatus. cbv zeta. cbn [h_msg].
    destruct (get_override_err p (status_GatewayID sm) e' ns nb) as [-> _].
    reflexivity. }
  split; [apply HandleUplink_nilable_set|].
  split; [apply HandleStatus_nilable_set|].
  split.
  - intros m h Hret.
    destruct (HandleUplink_nilable_returned p m ns nb h Hret) as (um' & -> & ->).
    split; [|now exists um'].
    unfold HandleUplink. cbv zeta.
    destruct (rx_Gps _); [reflexivity|]. destruct (AntennaLocation _); reflexivity.
  - intros m h Hret.
    destruct (HandleStatus_nilable_returned p m ns nb h Hret) as (sm' & -> & ->).
    split; [reflexivity|now exists sm'].
Qed.

End EnrichmentProperties.

(** * Further properties of the store *)

Section StoreAlgebra.

Context {float64 altitude : Type}.

Implicit Types (p : @Public float64 altitude).
Implicit Types (g : @Gateway float64 altitude) (i : @info float64 altitude).
Implicit Types (found : @Gateway float64 altitude * option error).
Implicit Types (o : @store_op float64 altitude) (ops : list (@store_op float64 altitude)).

Lemma with_info_id p : with_info p (p_info p) = p.
Proof. now destruct p. Qed.

(** Every store operation rewrites the map at the key of its gateway, by
    [op_entry], and nothing else of the state. *)
Lemma apply_op_partial_alter p o :
  apply_op p o =
  with_info p (partial_alter (op_entry (p_expire p) o) (op_key o) (p_info p)).
Proof.
  destruct o as [k g now|k e now|k ns nb|k]; unfold apply_op, op_key.
  - reflexivity.
  - unfold setErr. destruct (p_info p !! k) as [gtw|] eqn:Hk; f_equal;
      apply partial_alter_ext; intros x Hx; rewrite Hk in Hx; subst x; reflexivity.
  - unfold get, expired. destruct (p_info p !! k) as [i|] eqn:Hk.
    + destruct (negb (p_expire p =? 0)%Z && (p_expire p <? Since ns (lastUpdated i))%Z)
        eqn:Hx; cbn [get_state].
      * f_equal. apply partial_alter_ext. intros x Hx'. rewrite Hk in Hx'. subst x.
        cbn [op_entry]. now rewrite Hx.
      * rewrite partial_alter_id; [now rewrite with_info_id|].
        rewrite Hk. cbn [op_entry]. now rewrite Hx.
    + cbn [get_state]. rewrite partial_alter_id; [now rewrite with_info_id|].
      now rewrite Hk.
  - reflexivity.
Qed.

Lemma apply_op_frame p o :
  p_expire (apply_op p o) = p_expire p /\ p_available (apply_op p o) = p_available p.
Proof. rewrite apply_op_partial_alter. now split. Qed.

Lemma lookup_apply_op p o k :
  p_info (apply_op p o) !! k =
  if decide (op_key o = k) then op_entry (p_expire p) o (p_info p !! k)
  else p_info p !! k.
Proof.
  rewrite apply_op_partial_alter. cbn [p_info with_info].
  rewrite lookup_partial_alter. destruct (decide (op_key o = k)) as [->|]; reflexivity.
Qed.

Lemma run_ops_cons p o ops : run_ops p (o :: ops) = run_ops (apply_op p o) ops.
Proof. reflexivity. Qed.

Lemma run_ops_frame ops : forall p,
  p_expire (run_ops p ops) = p_expire p /\ p_available (run_ops p ops) = p_available p.
Proof.
  induction ops as [|o ops IH]; intros p; [now split|].
  rewrite run_ops_cons. destruct (IH (apply_op p o)) as [-> ->]. apply apply_op_frame.
Qed.

(** The record [get] returns, read off the map. *)
Lemma get_gateway_lookup p k ns nb :
  get_gateway (get p k ns nb) =
  match p_info p !! k with Some i => gateway i | None => zero_Gateway end.
Proof.
  unfold get. destruct (p_info p !! k) as [i|]; [|reflexivity].
  now destruct (expired p i ns).
Qed.

Lemma get_err_lookup p k ns nb :
  get_err (get p k ns nb) =
  match p_info p !! k with Some i => err i | None => None end.
Proof.
  unfold get. destruct (p_info p !! k) as [i|]; [|reflexivity].
  now destruct (expired p i ns).
Qed.

(** Operations on different gateways commute: the state does not depend on
    the order in which the fetches, reads and removals of two gateways
    interleave. *)
Theorem store_ops_commute p o1 o2 :
  op_key o1 <> op_key o2 ->
  apply_op (apply_op p o1) o2 = apply_op (apply_op p o2) o1.
Proof.
  intros Hne. rewrite !apply_op_partial_alter. cbn [p_expire p_info with_info].
  unfold with_info. cbn [p_expire p_available]. f_equal.
  apply partial_alter_partial_alter_ne. congruence.
Qed.

(** A successful fetch, and a removal, wipe out whatever happened to the
    gateway before: after any history of operations on [k] alone, [set]
    gives the state it gives without that history, and so does [unset]. *)
Theorem replacing_ops_absorb ops : forall p k g now,
  forallb (fun o => bool_decide (op_key o = k)) ops = true ->
  set (run_ops p ops) k g now = set p k g now /\
  unset (run_ops p ops) k = unset p k.
Proof.
  induction ops as [|o ops IH]; intros p k g now Hall; [now split|].
  cbn [forallb] in Hall. apply andb_true_iff in Hall as [Ho Hall].
  apply bool_decide_eq_true in Ho.
  rewrite run_ops_cons. destruct (IH (apply_op p o) k g now Hall) as [-> ->].
  change (set ?q k g now) with (apply_op q (OpSet k g now)).
  change (unset ?q k) with (apply_op q (OpUnset k)).
  rewrite !apply_op_partial_alter. cbn [p_expire p_info with_info op_key].
  unfold with_info. cbn [p_expire p_available]. rewrite Ho.
  rewrite !partial_alter_partial_alter_eq. split; reflexivity.
Qed.

(** Removing a gateway that has no entry changes nothing, so a second
    removal is void; and whatever the entry was, a read after the removal
    starts no refresh. *)
Theorem unset_missing p k :
  (p_info p !! k = None -> unset p k = p) /\
  unset (unset p k) k = unset p k /\
  (forall ns nb, get_spawned (get (unset p k) k ns nb) = [] /\
                 get_state (get (unset p k) k ns nb) = unset p k).
Proof.
  assert (Hnone : forall q : @Public float64 altitude,
             p_info q !! k = None -> unset q k = q).
  { intros q Hq. unfold unset. rewrite delete_id by exact Hq. apply with_info_id. }
  split; [apply Hnone|]. split; [apply Hnone, lookup_unset|].
  intros ns nb. rewrite get_missing by apply lookup_unset. now split.
Qed.

Lemma present_after_cons k b o ops :
  present_after k b (o :: ops) = present_after k (present_after k b [o]) ops.
Proof. reflexivity. Qed.

Lemma apply_op_present p o k (b : bool) :
  (is_Some (p_info p !! k) <-> b = true) ->
  (is_Some (p_info (apply_op p o) !! k) <-> present_after k b [o] = true).
Proof.
  intros Hb. rewrite lookup_apply_op. unfold present_after. cbn [fold_left].
  destruct o as [k' g now|k' e now|k' ns nb|k']; cbn [op_key op_entry].
  - destruct (decide (k' = k)) as [->|Hne].
    + rewrite bool_decide_eq_true_2 by reflexivity. split; eauto.
    + now rewrite bool_decide_eq_false_2 by exact Hne.
  - destruct (decide (k' = k)) as [->|Hne].
    + rewrite bool_decide_eq_true_2 by reflexivity.
      destruct (p_info p !! k); split; eauto.
    + now rewrite bool_decide_eq_false_2 by exact Hne.
  - destruct (decide (k' = k)) as [->|Hne]; [|exact Hb].
    rewrite <- Hb. destruct (p_info p !! k) as [i|]; [|reflexivity].
    destruct (negb _ && _); split; eauto.
  - destruct (decide (k' = k)) as [->|Hne].
    + rewrite bool_decide_eq_true_2 by reflexivity.
      split; [intros [x Hx]; discriminate|discriminate].
    + now rewrite bool_decide_eq_false_2 by exact Hne.
Qed.

(** A gateway has an entry exactly when a fetch for it has completed,
    with or without success, and it was not removed since: over any
    history, the presence of the entry follows [present_after]. *)
Theorem entry_present_after ops : forall p k (before : bool),
  (is_Some (p_info p !! k) <-> before = true) ->
  (is_Some (p_info (run_ops p ops) !! k) <-> present_after k before ops = true).
Proof.
  induction ops as [|o ops IH]; intros p k before Hb; [exact Hb|].
  rewrite run_ops_cons, present_after_cons.
  apply IH. now apply apply_op_present.
Qed.

Lemma apply_op_keeps_record p o k ns nb ns' nb' :
  replaces k o = false ->
  get_gateway (get (apply_op p o) k ns nb) = get_gateway (get p k ns' nb').
Proof.
  intros Hrep. rewrite !get_gateway_lookup, lookup_apply_op.
  destruct (decide (op_key o = k)) as [Hk|]; [|reflexivity].
  destruct o as [k' g now|k' e now|k' ns0 nb0|k']; cbn [op_key op_entry replaces] in *.
  - apply bool_decide_eq_false in Hrep. contradiction.
  - now destruct (p_info p !! k).
  - destruct (p_info p !! k) as [i|]; [|reflexivity]. now destruct (negb _ && _).
  - apply bool_decide_eq_false in Hrep. contradiction.
Qed.

(** Failures never cost the record: over any history in which no fetch for
    [k] succeeds and [k] is not removed, however many fetches for it fail,
    [get] keeps returning the record it returned before (the zero record if
    there was none). *)
Theorem failures_keep_record ops : forall p k ns nb ns' nb',
  forallb (fun o => negb (replaces k o)) ops = true ->
  get_gateway (get (run_ops p ops) k ns nb) = get_gateway (get p k ns' nb').
Proof.
  induction ops as [|o ops IH]; intros p k ns nb ns' nb' Hall.
  - rewrite !get_gateway_lookup. reflexivity.
  - cbn [forallb] in Hall. apply andb_true_iff in Hall as [Ho Hall].
    apply negb_true_iff in Ho. rewrite run_ops_cons.
    rewrite (IH (apply_op p o) k ns nb ns nb Hall).
    now apply apply_op_keeps_record.
Qed.

(** What a fetch returns is what it caches: once the lookup is done, [get]
    reports for the gateway the very error the fetch returned, which is the
    error of the lookup; after a lookup without error it returns the record
    found. *)
Theorem fetch_result_is_cached p k found now ns nb :
  let r := fetch_lookup p k found now in
  snd r = snd found /\
  get_err (get (fst r) k ns nb) = snd r /\
  (snd found = None -> get_gateway (get (fst r) k ns nb) = fst found).
Proof.
  cbv zeta. unfold fetch_lookup. destruct (snd found) as [e|] eqn:He; cbn [fst snd].
  - split; [reflexivity|]. split; [|discriminate].
    rewrite get_err_lookup.
    destruct (p_info p !! k) as [i|] eqn:Hk.
    + now rewrite (lookup_setErr_present p k (Some e) now i Hk).
    + now rewrite (lookup_setErr_absent p k (Some e) now Hk).
  - split; [reflexivity|]. split.
    + now rewrite get_err_lookup, lookup_set.
    + intros _. now rewrite get_gateway_lookup, lookup_set.
Qed.

(** The expiry decides when to refresh and nothing else: the record and the
    error [get] returns are the same under every expiry, and with the expiry
    set back to zero [get] starts nothing and leaves the state alone. *)
Theorem WithExpire_reads p d k ns nb :
  get_gateway (get (WithExpire p d) k ns nb) = get_gateway (get p k ns nb) /\
  get_err (get (WithExpire p d) k ns nb) = get_err (get p k ns nb) /\
  get_spawned (get (WithExpire p 0%Z) k ns nb) = [] /\
  get_state (get (WithExpire p 0%Z) k ns nb) = WithExpire p 0%Z /\
  WithExpire (WithExpire p d) 0%Z = WithExpire p 0%Z.
Proof.
  split; [now rewrite !get_gateway_lookup|].
  split; [now rewrite !get_err_lookup|].
  unfold get. cbn [WithExpire p_info].
  destruct (p_info p !! k) as [i|]; now repeat split.
Qed.

End StoreAlgebra.

(** * Further properties of the handlers *)

Section HandlerProperties.

Context {float64 float32 altitude int32 : Type}.
Context (to_float32 : float64 -> float32) (to_int32 : altitude -> int32).

Implicit Types (p : @Public float64 altitude) (g : @Gateway float64 altitude).
Implicit Types (um : @UplinkMessage float32 int32) (sm : @StatusMessage float32 int32).
Implicit Types (cm : ConnectMessage) (dm : DisconnectMessage).

(** A read changes nothing of what reads return, for any gateway. *)
Lemma get_state_reads p k ns nb k' ns1 nb1 ns2 nb2 :
  get_gateway (get (get_state (get p k ns nb)) k' ns1 nb1) = get_gateway (get p k' ns2 nb2) /\
  get_err (get (get_state (get p k ns nb)) k' ns1 nb1) = get_err (get p k' ns2 nb2).
Proof.
  rewrite !get_gateway_lookup, !get_err_lookup.
  change (get_state (get p k ns nb)) with (apply_op p (OpGet k ns nb)).
  rewrite lookup_apply_op. cbn [op_key op_entry].
  destruct (decide (k = k')) as [->|]; [|now split].
  destruct (p_info p !! k') as [i|]; [|now split].
  destruct (negb _ && _); now split.
Qed.

Lemma get_state_frame p k ns nb :
  p_expire (get_state (get p k ns nb)) = p_expire p /\
  p_available (get_state (get p k ns nb)) = p_available p /\
  dom (p_info (get_state (get p k ns nb))) = dom (p_info p).
Proof.
  unfold get. destruct (p_info p !! k) as [i|] eqn:Hk; [|now repeat split].
  destruct (expired p i ns); [|now repeat split].
  cbn [get_state p_expire p_available p_info with_info].
  split; [reflexivity|]. split; [reflexivity|].
  apply dom_insert_lookup_L. eauto.
Qed.

Lemma HandleUplink_state p um ns nb :
  h_state (HandleUplink to_float32 to_int32 p um ns nb)
    = get_state (get p (uplink_GatewayID um) ns nb) /\
  h_spawned (HandleUplink to_float32 to_int32 p um ns nb)
    = get_spawned (get p (uplink_GatewayID um) ns nb).
Proof.
  unfold HandleUplink. cbv zeta.
  destruct (rx_Gps _); [now split|]. destruct (AntennaLocation _); now split.
Qed.

Lemma HandleStatus_state p sm ns nb :
  h_state (HandleStatus to_float32 to_int32 p sm ns nb)
    = get_state (get p (status_GatewayID sm) ns nb) /\
  h_spawned (HandleStatus to_float32 to_int32 p sm ns nb)
    = get_spawned (get p (status_GatewayID sm) ns nb).
Proof. now split. Qed.

(** The handlers read the cache and never write a record or an error: after
    any of the four, [get] returns for every gateway the record and the
    error it returned before, no entry was made or dropped, and the permits
    and the expiry are as they were.  The two that read start at most one
    goroutine, a fetch of the gateway of the message; with the expiry at
    zero they start none and return the state they were given. *)
Theorem handlers_only_read p cm dm um sm ns nb (q : @Public float64 altitude) :
  q = h_state (HandleConnect p cm) \/ q = h_state (HandleDisconnect p dm) \/
  q = h_state (HandleUplink to_float32 to_int32 p um ns nb) \/
  q = h_state (HandleStatus to_float32 to_int32 p sm ns nb) ->
  (forall k ns1 nb1 ns2 nb2,
      get_gateway (get q k ns1 nb1) = get_gateway (get p k ns2 nb2) /\
      get_err (get q k ns1 nb1) = get_err (get p k ns2 nb2)) /\
  dom (p_info q) = dom (p_info p) /\
  p_available q = p_available p /\
  p_expire q = p_expire p /\
  (h_spawned (HandleUplink to_float32 to_int32 p um ns nb) = [] \/
   h_spawned (HandleUplink to_float32 to_int32 p um ns nb) = [GoFetch (uplink_GatewayID um)]) /\
  (h_spawned (HandleStatus to_float32 to_int32 p sm ns nb) = [] \/
   h_spawned (HandleStatus to_float32 to_int32 p sm ns nb) = [GoFetch (status_GatewayID sm)]) /\
  (p_expire p = 0%Z ->
   q = p /\
   h_spawned (HandleUplink to_float32 to_int32 p um ns nb) = [] /\
   h_spawned (HandleStatus to_float32 to_int32 p sm ns nb) = []).
Proof.
  intros Hq.
  destruct (HandleUplink_state p um ns nb) as [Hus Hup].
  destruct (HandleStatus_state p sm ns nb) as [Hss Hsp].
  assert (Hcases : q = p \/ exists k, q = get_state (get p k ns nb)).
  { destruct Hq as [-> | [-> | [-> | ->]]]; [now left|now left|right|right].
    - exists (uplink_GatewayID um). exact Hus.
    - exists (status_GatewayID sm). exact Hss. }
  rewrite Hup, Hsp.
  split; [|split; [|split; [|split; [|split; [|split]]]]].
  - intros k ns1 nb1 ns2 nb2. destruct Hcases as [->|[k0 ->]].
    + now rewrite !get_gateway_lookup, !get_err_lookup.
    + apply get_state_reads.
  - destruct Hcases as [->|[k0 ->]]; [reflexivity|apply get_state_frame].
  - destruct Hcases as [->|[k0 ->]]; [reflexivity|apply get_state_frame].
  - destruct Hcases as [->|[k0 ->]]; [reflexivity|apply get_state_frame].
  - destruct (get_spawned_cases p (uplink_GatewayID um) ns nb) as [[H _]|H]; auto.
  - destruct (get_spawned_cases p (status_GatewayID sm) ns nb) as [[H _]|H]; auto.
  - intros Hz.
    assert (Hget : forall k, get_spawned (get p k ns nb) = [] /\ get_state (get p k ns nb) = p).
    { intros k. unfold get. destruct (p_info p !! k) as [i|]; [|now split].
      unfold expired. rewrite Hz. now split. }
    split; [|split; apply Hget].
    destruct Hcases as [->|[k0 ->]]; [reflexivity|apply Hget].
Qed.

(** For a gateway with no entry the two enriching handlers do nothing at
    all to a message whose pointers are set: the message comes back as it
    was, the state too, and no goroutine is started.  On a message with
    [msg.Message] nil, or an uplink with the gateway metadata nil, they
    panic, with the state as it was and no goroutine started. *)
Theorem handlers_without_entry p um sm ns nb :
  (p_info p !! uplink_GatewayID um = None ->
   HandleUplink to_float32 to_int32 p um ns nb = mkHandled p um [] None /\
   HandleUplink_nilable to_float32 to_int32 p (uplink_set um) ns nb
     = Returned (mkHandled p um [] None)) /\
  (p_info p !! status_GatewayID sm = None ->
   HandleStatus to_float32 to_int32 p sm ns nb = mkHandled p sm [] None /\
   HandleStatus_nilable to_float32 to_int32 p (status_set sm) ns nb
     = Returned (mkHandled p sm [] None)) /\
  (forall k tr,
      p_info p !! k = None ->
      HandleUplink_nilable to_float32 to_int32 p (mkNilableUplink k None) ns nb
        = Panicked p [] /\
      HandleUplink_nilable to_float32 to_int32 p
        (mkNilableUplink k (Some (mkNilableRouterUplink None tr))) ns nb
        = Panicked p [] /\
      HandleStatus_nilable to_float32 to_int32 p (mkNilableStatus k None) ns nb
        = Panicked p []).
Proof.
  assert (Hup : p_info p !! uplink_GatewayID um = None ->
                HandleUplink to_float32 to_int32 p um ns nb = mkHandled p um [] None);
    [|assert (Hst : p_info p !! status_GatewayID sm = None ->
                    HandleStatus to_float32 to_int32 p sm ns nb = mkHandled p sm [] None);
      [|split; [|split]]].
  3: { intros Hk. split; [now apply Hup|].
       rewrite HandleUplink_nilable_set. now rewrite Hup. }
  3: { intros Hk. split; [now apply Hst|].
       change (HandleStatus_nilable to_float32 to_int32 p (status_set sm) ns nb)
         with (Returned (HandleStatus to_float32 to_int32 p sm ns nb)).
       now rewrite Hst. }
  3: { intros k tr Hk.
       unfold HandleUplink_nilable, HandleStatus_nilable. cbv zeta.
       cbn [nuplink_GatewayID nuplink_Message nup_GatewayMetadata nstatus_GatewayID
            nstatus_Message].
       rewrite (get_missing p k ns nb Hk). now repeat split. }
  all: intros Hk.
  - unfold HandleUplink. rewrite (get_missing p _ ns nb Hk). cbv zeta.
    cbn [get_gateway get_err get_state get_spawned AntennaLocation zero_Gateway].
    destruct um as [k [meta tr]]. destruct meta as [gps]. cbn. now destruct gps.
  - unfold HandleStatus. rewrite (get_missing p _ ns nb Hk). cbv zeta.
    cbn [get_gateway get_err get_state get_spawned AntennaLocation FrequencyPlan
         Attributes Brand Model Description zero_Gateway platform_elems Join].
    destruct sm as [k [gps fp pl d]].
    cbn [status_GatewayID status_Message st_Gps st_FrequencyPlan st_Platform st_Description].
    rewrite andb_false_r.
    do 2 f_equal. f_equal.
    + now destruct gps.
    + destruct (String.eqb_spec pl ""); [now subst|reflexivity].
    + now destruct (String.eqb d "").
Qed.

(** Store and read back: after a fetch stored the record [g], a status
    message of that gateway with no field set comes out with the location,
    the frequency plan, the platform and the description of [g], and a
    message with no location gets the location of [g] from [HandleUplink]
    as from [HandleStatus]. *)
Theorem set_then_enrich p k g now ns nb tr :
  let p1 := set p k g now in
  let gps := gps_of_location to_float32 to_int32 <$> AntennaLocation g in
  h_msg (HandleStatus to_float32 to_int32 p1
           (mkStatusMessage k (mkStatus None "" "" "")) ns nb)
  = mkStatusMessage k
      (mkStatus gps (FrequencyPlan g)
         (Join (platform_elems (Attributes g)) " ")
         (default "" (Description (Attributes g)))) /\
  rx_Gps (up_GatewayMetadata (uplink_Message
      (h_msg (HandleUplink to_float32 to_int32 p1
                (mkUplinkMessage k (mkRouterUplink (mkRxMetadata None) tr)) ns nb))))
  = gps.
Proof.
  cbv zeta.
  assert (Hg : get_gateway (get (set p k g now) k ns nb) = g)
    by now rewrite get_gateway_lookup, lookup_set.
  split.
  - unfold HandleStatus. cbv zeta.
    cbn [h_msg status_GatewayID status_Message st_Gps st_FrequencyPlan st_Platform
         st_Description String.eqb andb].
    rewrite Hg.
    destruct (AntennaLocation g), (String.eqb_spec (FrequencyPlan g) "") as [Hf|Hf],
      (Description (Attributes g));
      cbn [negb fmap option_fmap option_map default]; rewrite ?Hf; reflexivity.
  - unfold HandleUplink. cbv zeta.
    cbn [uplink_GatewayID uplink_Message up_GatewayMetadata rx_Gps].
    rewrite Hg. now destruct (AntennaLocation g).
Qed.

(** Enriching is idempotent: a status message that went through
    [HandleStatus] comes out of a second pass unchanged, and an uplink that
    went through [HandleUplink] keeps its metadata in a second pass and, if
    no error is stored for its gateway, its trace too. *)
Theorem enrichment_idempotent p um sm ns nb ns' nb' :
  let s1 := HandleStatus to_float32 to_int32 p sm ns nb in
  let u1 := HandleUplink to_float32 to_int32 p um ns nb in
  let u2 := HandleUplink to_float32 to_int32 (h_state u1) (h_msg u1) ns' nb' in
  h_msg (HandleStatus to_float32 to_int32 (h_state s1) (h_msg s1) ns' nb') = h_msg s1 /\
  up_GatewayMetadata (uplink_Message (h_msg u2))
    = up_GatewayMetadata (uplink_Message (h_msg u1)) /\
  (get_err (get p (uplink_GatewayID um) ns nb) = None -> h_msg u2 = h_msg u1).
Proof.
  cbv zeta. split; [|].
  - unfold HandleStatus. cbv zeta.
    cbn [h_msg h_state status_GatewayID status_Message st_Gps st_FrequencyPlan
         st_Platform st_Description].
    rewrite (proj1 (get_state_reads p (status_GatewayID sm) ns nb
                      (status_GatewayID sm) ns' nb' ns nb)).
    generalize (get_gateway (get p (status_GatewayID sm) ns nb)). intros g.
    destruct sm as [k [gps fp pl d]].
    cbn [status_GatewayID status_Message st_Gps st_FrequencyPlan st_Platform st_Description].
    do 2 f_equal. f_equal.
    + destruct gps, (AntennaLocation g); reflexivity.
    + destruct (String.eqb fp "") eqn:E1, (String.eqb (FrequencyPlan g) "") eqn:E2;
        cbn [andb negb]; rewrite ?E1, ?E2; reflexivity.
    + destruct (String.eqb pl "") eqn:E1; [|now rewrite E1].
      now destruct (String.eqb (Join (platform_elems (Attributes g)) " ") "").
    + destruct (String.eqb d "") eqn:E1, (Description (Attributes g)) as [x|];
        rewrite ?E1; try reflexivity.
      now destruct (String.eqb x "").
  - destruct um as [k [meta tr]]. destruct meta as [gps].
    pose proof (get_state_reads p k ns nb k ns' nb' ns nb) as [Hg He].
    unfold HandleUplink. cbv zeta.
    cbn [uplink_GatewayID uplink_Message up_GatewayMetadata up_Trace rx_Gps].
    destruct gps as [x|];
      [|destruct (AntennaLocation (get_gateway (get p k ns nb))) as [loc|] eqn:Hloc];
      cbn [h_state h_msg uplink_GatewayID uplink_Message up_GatewayMetadata up_Trace rx_Gps];
      rewrite ?Hg, ?He, ?Hloc;
      cbn [h_state h_msg uplink_GatewayID uplink_Message up_GatewayMetadata up_Trace rx_Gps];
      (split; [reflexivity|intros HE; rewrite ?HE; reflexivity]).
Qed.

(** A gateway connects, its fetch finds a permit and a record with a
    location, an uplink without location passes, the gateway disconnects
    and its entry is removed, a second uplink passes: the first uplink gets
    the location of the record and the trace event that says so, the second
    comes back as it went in. *)
Theorem connect_enrich_disconnect p k g loc now cap n q tr ns nb ns' nb' :
  p_available p = Chan cap (S n) q ->
  AntennaLocation g = Some loc ->
  let um := mkUplinkMessage k (mkRouterUplink (mkRxMetadata None) tr) in
  let p1 := set (with_available p (Chan cap n q)) k g now in
  let u1 := HandleUplink to_float32 to_int32 p1 um ns nb in
  h_spawned (HandleConnect p (mkConnectMessage k)) = [GoConnect k] /\
  connect_goroutine p k (g, None) now = Some (p1, connect_log k None) /\
  h_msg u1 = mkUplinkMessage k
               (mkRouterUplink
                  (mkRxMetadata (Some (gps_of_location to_float32 to_int32 loc)))
                  (WithEvent tr "injecting gateway location" [])) /\
  h_spawned (HandleDisconnect (h_state u1) (mkDisconnectMessage k)) = [GoUnset k] /\
  HandleUplink to_float32 to_int32 (unset (h_state u1) k) um ns' nb'
    = mkHandled (unset (h_state u1) k) um [] None.
Proof.
  intros Hav Hloc. cbv zeta.
  split; [reflexivity|]. split.
  { unfold connect_goroutine, fetch, fetch_recv, chan_recv. rewrite Hav. reflexivity. }
  split.
  { unfold HandleUplink. cbv zeta.
    cbn [uplink_GatewayID uplink_Message up_GatewayMetadata up_Trace rx_Gps].
    rewrite get_gateway_lookup, get_err_lookup, lookup_set.
    cbn [gateway err]. rewrite Hloc. reflexivity. }
  split; [reflexivity|].
  unfold HandleUplink.
  rewrite (get_missing _ k ns' nb') by apply lookup_unset.
  reflexivity.
Qed.

End HandlerProperties.

(** * Further properties of the permit channel *)

Section LimiterHistories.

Context {float64 altitude : Type}.

Implicit Types (p : @Public float64 altitude).
Implicit Types (s : @Public float64 altitude * list string).
Implicit Types (o : @store_op float64 altitude) (ops : list (@store_op float64 altitude)).

Lemma limiter_run_cons s ev evs :
  limiter_run s (ev :: evs) = limiter_run (limiter_step s ev) evs.
Proof. reflexivity. Qed.

Lemma fetched_cons ev evs :
  fetched (ev :: evs) = match ev with EvFetch k => k :: fetched evs | EvTick => fetched evs end.
Proof. now destruct ev. Qed.

(** One event keeps two things: a fetch is parked only while nothing is
    buffered, and the fetches past the receive together with the parked
    ones are those of before and the one of the event. *)
Lemma limiter_step_conserves s ev :
  (chan_recvq (p_available (fst s)) <> [] -> chan_len (p_available (fst s)) = 0) ->
  (chan_recvq (p_available (fst (limiter_step s ev))) <> [] ->
   chan_len (p_available (fst (limiter_step s ev))) = 0) /\
  snd (limiter_step s ev) ++ chan_recvq (p_available (fst (limiter_step s ev)))
    ≡ₚ (snd s ++ chan_recvq (p_available (fst s))) ++ fetched [ev].
Proof.
  destruct s as [p st]. destruct p as [ex m [cap len q]]. cbn [fst snd p_available chan_recvq chan_len].
  intros Hinv. destruct ev as [|k]; unfold limiter_step; cbn [fst snd].
  - unfold tick, chan_send. cbn [p_available chan_recvq chan_len chan_cap].
    destruct q as [|r q]; cbn [fetched flat_map app].
    + destruct (len <? cap); cbn [fst snd p_available with_available chan_recvq chan_len];
        (split; [congruence|now rewrite !app_nil_r]).
    + cbn [fst snd p_available with_available chan_recvq chan_len].
      split; [intros _; apply Hinv; discriminate|].
      rewrite app_nil_r, <- app_assoc. reflexivity.
  - unfold fetch_recv, chan_recv. cbn [p_available chan_recvq chan_len chan_cap].
    destruct len as [|n]; cbn [fst snd p_available with_available chan_recvq chan_len fetched flat_map app].
    + split; [reflexivity|]. now rewrite app_assoc.
    + assert (Hq : q = []) by (destruct q; [reflexivity|discriminate Hinv; discriminate]).
      subst q. split; [congruence|]. now rewrite !app_nil_r.
Qed.

Lemma limiter_run_conserves evs : forall s,
  (chan_recvq (p_available (fst s)) <> [] -> chan_len (p_available (fst s)) = 0) ->
  (chan_recvq (p_available (fst (limiter_run s evs))) <> [] ->
   chan_len (p_available (fst (limiter_run s evs))) = 0) /\
  snd (limiter_run s evs) ++ chan_recvq (p_available (fst (limiter_run s evs)))
    ≡ₚ (snd s ++ chan_recvq (p_available (fst s))) ++ fetched evs.
Proof.
  induction evs as [|ev evs IH]; intros s Hinv.
  - split; [exact Hinv|]. cbn. now rewrite app_nil_r.
  - rewrite limiter_run_cons.
    destruct (limiter_step_conserves s ev Hinv) as [Hinv' Hperm].
    destruct (IH _ Hinv') as [Hinv'' Hperm'].
    split; [exact Hinv''|]. rewrite Hperm', Hperm.
    rewrite <- app_assoc. apply Permutation_app_head.
    rewrite fetched_cons. now destruct ev.
Qed.

Lemma NewPublic_available srv burst p :
  NewPublic srv burst = Some p ->
  p_available p = Chan (Z.to_nat burst) (Z.to_nat burst) [] /\ p_info p = ∅.
Proof.
  intros Hnew. destruct (Z.ltb_spec burst 0) as [Hneg|Hpos].
  - rewrite NewPublic_negative in Hnew by exact Hneg. discriminate.
  - rewrite NewPublic_ok in Hnew by exact Hpos. injection Hnew as <-. now split.
Qed.

(** No fetch is lost and none waits beside a permit: in every history of a
    middleware made by [NewPublic], the fetches that reached the receive
    are, counted with repetitions, those that got past it and those still
    parked; and whenever a fetch is parked, no permit is buffered. *)
Theorem limiter_loses_no_fetch srv burst p evs :
  NewPublic srv burst = Some p ->
  snd (limiter_run (p, []) evs) ++ chan_recvq (p_available (fst (limiter_run (p, []) evs)))
    ≡ₚ fetched evs /\
  (chan_recvq (p_available (fst (limiter_run (p, []) evs))) <> [] ->
   chan_len (p_available (fst (limiter_run (p, []) evs))) = 0).
Proof.
  intros Hnew. destruct (NewPublic_available srv burst p Hnew) as [Hav _].
  destruct (limiter_run_conserves evs (p, [])) as [Hinv Hperm].
  - cbn [fst]. rewrite Hav. intros Hq. now contradiction Hq.
  - split; [|exact Hinv]. rewrite Hperm. cbn [fst snd]. rewrite Hav. reflexivity.
Qed.

Lemma with_available_id p : with_available p (p_available p) = p.
Proof. now destruct p. Qed.

(** Ticks alone, with no fetch parked: the buffer fills up to its capacity
    and stays there; no fetch starts. *)
Lemma idle_ticks_run n : forall p st cap len,
  p_available p = Chan cap len [] -> len <= cap ->
  limiter_run (p, st) (repeat EvTick n)
  = (with_available p (Chan cap (Nat.min cap (len + n)) []), st).
Proof.
  induction n as [|n IH]; intros p st cap len Hav Hle.
  - cbn. rewrite Nat.add_0_r, Nat.min_r by exact Hle. now rewrite <- Hav, with_available_id.
  - cbn [repeat]. rewrite limiter_run_cons. unfold limiter_step, tick, chan_send.
    cbn [fst snd]. rewrite Hav. cbn [chan_recvq chan_len chan_cap].
    destruct (Nat.ltb_spec len cap) as [Hlt|Hge].
    + rewrite (IH _ st cap (S len)) by (reflexivity || lia).
      unfold with_available. cbn [p_expire p_info]. do 3 f_equal. lia.
    + rewrite (IH p st cap len Hav Hle). do 3 f_equal. lia.
Qed.

(** Ticks alone, with fetches parked: each tick lets the oldest parked fetch
    through, and the ticks that are left fill the buffer. *)
Lemma parked_ticks_run n : forall p st cap q,
  p_available p = Chan cap 0 q ->
  limiter_run (p, st) (repeat EvTick n)
  = (with_available p (Chan cap (Nat.min cap (n - length q)) (drop n q)), st ++ take n q).
Proof.
  induction n as [|n IH]; intros p st cap q Hav.
  - cbn. rewrite Nat.min_0_r, app_nil_r, drop_0. now rewrite <- Hav, with_available_id.
  - destruct q as [|r q].
    + rewrite (idle_ticks_run (S n) p st cap 0 Hav) by lia.
      cbn [length take drop]. rewrite app_nil_r, Nat.sub_0_r. reflexivity.
    + cbn [repeat]. rewrite limiter_run_cons. unfold limiter_step, tick, chan_send.
      cbn [fst snd]. rewrite Hav. cbn [chan_recvq chan_len chan_cap].
      rewrite (IH _ (st ++ [r]) cap q) by reflexivity.
      unfold with_available. cbn [p_expire p_info length take drop Nat.sub].
      now rewrite <- app_assoc.
Qed.

(** Idle refills saturate: from a buffer of [len] permits within a capacity
    of [cap] and no fetch parked, [n] ticks leave the smaller of [cap] and
    [len + n] permits, start no fetch and park none. *)
Theorem idle_ticks_saturate p st cap len n :
  p_available p = Chan cap len [] -> len <= cap ->
  limiter_run (p, st) (repeat EvTick n)
  = (with_available p (Chan cap (Nat.min cap (len + n)) []), st).
Proof. apply idle_ticks_run. Qed.

(** Parked fetches leave in the order they came, one per tick: with [q]
    parked, [n] ticks let the first [n] of [q] through, in that order, and
    keep the others parked; ticks beyond the length of [q] go to the
    buffer, up to its capacity. *)
Theorem ticks_release_oldest_first p st cap q n :
  p_available p = Chan cap 0 q ->
  snd (limiter_run (p, st) (repeat EvTick n)) = st ++ take n q /\
  p_available (fst (limiter_run (p, st) (repeat EvTick n)))
  = Chan cap (Nat.min cap (n - length q)) (drop n q).
Proof. intros Hav. now rewrite (parked_ticks_run n p st cap q Hav). Qed.

Lemma limiter_step_frame s ev :
  p_info (fst (limiter_step s ev)) = p_info (fst s) /\
  p_expire (fst (limiter_step s ev)) = p_expire (fst s).
Proof.
  destruct s as [p st]. destruct ev as [|k]; unfold limiter_step; cbn [fst snd].
  - unfold tick. destruct (chan_send (p_available p)); now split.
  - unfold fetch_recv. destruct (chan_recv (p_available p) k); now split.
Qed.

(** The cache and the permits do not meet: no history of store operations
    takes or adds a permit or changes the expiry, and no history of ticks
    and receives changes an entry or the expiry. *)
Theorem store_and_permits_apart p ops evs st :
  p_available (run_ops p ops) = p_available p /\
  p_expire (run_ops p ops) = p_expire p /\
  p_info (fst (limiter_run (p, st) evs)) = p_info p /\
  p_expire (fst (limiter_run (p, st) evs)) = p_expire p.
Proof.
  destruct (run_ops_frame ops p) as [He Ha].
  split; [exact Ha|]. split; [exact He|].
  clear He Ha ops. revert p st. induction evs as [|ev evs IH]; intros p st; [now split|].
  rewrite limiter_run_cons.
  destruct (limiter_step_frame (p, st) ev) as [Hi Hx].
  destruct (limiter_step (p, st) ev) as [p' st'].
  destruct (IH p' st') as [-> ->]. now split.
Qed.

End LimiterHistories.

(** * Further properties of expiry and refresh *)

Section RefreshCycle.

Context {float64 altitude : Type}.

Implicit Types (p : @Public float64 altitude) (i : @info float64 altitude).
Implicit Types (found : @Gateway float64 altitude * option error).

Lemma Since_mono (now now' t : Time) :
  (now <= now')%Z -> (Since now t <= Since now' t)%Z.
Proof.
  intros Hle. unfold Since, Sub, minDuration, maxDuration.
  destruct (Z.ltb_spec (now - t) (- 2 ^ 63)), (Z.ltb_spec (2 ^ 63 - 1) (now - t)),
    (Z.ltb_spec (now' - t) (- 2 ^ 63)), (Z.ltb_spec (2 ^ 63 - 1) (now' - t)); lia.
Qed.

Lemma Since_nonneg (now t : Time) : (t <= now)%Z -> (0 <= Since now t)%Z.
Proof.
  intros Hle. unfold Since, Sub, minDuration, maxDuration.
  destruct (Z.ltb_spec (now - t) (- 2 ^ 63)), (Z.ltb_spec (2 ^ 63 - 1) (now - t)); lia.
Qed.

(** The state [NewPublic] returns, and when it returns none: a negative
    burst makes no channel; any other burst gives a middleware with no
    entry, the expiry off and the buffer full, where every read returns the
    zero record and no error. *)
Theorem NewPublic_initial srv (burst : Z) :
  ((burst < 0)%Z -> NewPublic (float64 := float64) (altitude := altitude) srv burst = None) /\
  ((0 <= burst)%Z ->
   exists p, NewPublic srv burst = Some p /\
     p_info p = ∅ /\ p_expire p = 0%Z /\
     p_available p = Chan (Z.to_nat burst) (Z.to_nat burst) [] /\
     forall k ns nb, get p k ns nb = mkGetResult p zero_Gateway None []).
Proof.
  split; [apply NewPublic_negative|].
  intros Hb. eexists. split; [apply NewPublic_ok, Hb|].
  cbn [p_info p_expire p_available]. repeat split.
Qed.

(** Staleness only grows with the clock: an entry for which [get] starts a
    refresh at one reading of the clock makes it start one at every later
    reading, as long as the entry is as it was. *)
Theorem stale_stays_stale p k ns nb ns' nb' :
  (ns <= ns')%Z ->
  get_spawned (get p k ns nb) = [GoFetch k] ->
  get_spawned (get p k ns' nb') = [GoFetch k].
Proof.
  intros Hle. unfold get. destruct (p_info p !! k) as [i|]; [|discriminate].
  destruct (expired p i ns) eqn:Hx; [|discriminate]. intros _.
  apply expired_true in Hx as [Hnz Hlt].
  assert (Hx' : expired p i ns' = true).
  { apply expired_true. split; [exact Hnz|].
    pose proof (Since_mono ns ns' (lastUpdated i) Hle). lia. }
  now rewrite Hx'.
Qed.

(** A negative expiry refreshes on every read: each [get] of an entry, at
    a clock not behind the stamp of the entry, starts a fetch. *)
Theorem negative_expire_refetches p k i ns nb :
  (p_expire p < 0)%Z ->
  p_info p !! k = Some i ->
  (lastUpdated i <= ns)%Z ->
  get_spawned (get p k ns nb) = [GoFetch k].
Proof.
  intros Hneg Hi Hle.
  rewrite (get_stale p k ns nb i Hi); [reflexivity|].
  apply expired_true. pose proof (Since_nonneg ns (lastUpdated i) Hle). lia.
Qed.

(** One turn of the refresh: a read finds the entry stale and starts a
    fetch; when that fetch completes at [now], a read within one expiry of
    [now] starts nothing and changes nothing, and returns the error of the
    lookup together with the record found, or with the old record if the
    lookup failed; a read later than one expiry after [now] starts the next
    fetch, whether the lookup failed or not. *)
Theorem refresh_cycle p k i ns nb found now ns2 nb2 ns3 nb3 :
  p_info p !! k = Some i ->
  p_expire p <> 0%Z ->
  (p_expire p < Since ns (lastUpdated i))%Z ->
  (Since ns2 now <= p_expire p)%Z ->
  (p_expire p < Since ns3 now)%Z ->
  let r0 := get p k ns nb in
  let r1 := fetch_lookup (get_state r0) k found now in
  let r2 := get (fst r1) k ns2 nb2 in
  get_spawned r0 = [GoFetch k] /\
  get_gateway r0 = gateway i /\
  get_spawned r2 = [] /\
  get_state r2 = fst r1 /\
  get_err r2 = snd found /\
  get_gateway r2 = match snd found with None => fst found | Some _ => gateway i end /\
  get_spawned (get (fst r1) k ns3 nb3) = [GoFetch k].
Proof.
  intros Hi Hnz Hstale Hsoon Hlate. cbv zeta.
  assert (Hx : expired p i ns = true) by (apply expired_true; now split).
  rewrite (get_stale p k ns nb i Hi Hx). cbn [get_spawned get_gateway get_state].
  split; [reflexivity|]. split; [reflexivity|].
  set (p1 := with_info p (<[k := mkInfo nb (err i) (gateway i)]> (p_info p))).
  assert (H1 : p_info p1 !! k = Some (mkInfo nb (err i) (gateway i)))
    by apply lookup_insert_eq.
  assert (Hentry : p_info (fst (fetch_lookup p1 k found now)) !! k
                   = Some (mkInfo now (snd found)
                             (match snd found with
                              | None => fst found
                              | Some _ => gateway i
                              end)) /\
                   p_expire (fst (fetch_lookup p1 k found now)) = p_expire p).
  { unfold fetch_lookup. destruct (snd found) as [e|]; cbn [fst].
    - rewrite (lookup_setErr_present p1 k (Some e) now _ H1).
      split; [reflexivity|]. unfold setErr. now rewrite H1.
    - rewrite lookup_set. now split. }
  destruct Hentry as [Hentry Hexp].
  assert (Hfresh : expired (fst (fetch_lookup p1 k found now))
                     (mkInfo now (snd found)
                        (match snd found with
                         | None => fst found
                         | Some _ => gateway i
                         end)) ns2 = false).
  { unfold expired. rewrite Hexp. cbn [lastUpdated].
    apply andb_false_iff. right. now apply Z.ltb_ge. }
  rewrite (get_fresh _ k ns2 nb2 _ Hentry Hfresh).
  cbn [get_spawned get_state get_err get_gateway err gateway].
  repeat (split; [reflexivity|]).
  rewrite (get_stale _ k ns3 nb3 _ Hentry); [reflexivity|].
  apply expired_true. rewrite Hexp. cbn [lastUpdated]. now split.
Qed.

End RefreshCycle.

Section FetchPermit.

Context {float64 altitude : Type}.

Implicit Types (p : @Public float64 altitude).
Implicit Types (found : @Gateway float64 altitude * option error).

(** A fetch looks up only with a permit in hand: it parks, and returns
    nothing, exactly when no permit is buffered; otherwise it returns the
    error of its lookup, leaves one permit less, and has changed the store
    for its own gateway only. *)
Theorem fetch_needs_permit p k found now :
  (fetch p k found now = None <-> chan_len (p_available p) = 0) /\
  (forall p' r,
      fetch p k found now = Some (p', r) ->
      r = snd found /\
      S (chan_len (p_available p')) = chan_len (p_available p) /\
      chan_recvq (p_available p') = chan_recvq (p_available p) /\
      forall k', k' <> k -> p_info p' !! k' = p_info p !! k').
Proof.
  unfold fetch, fetch_recv, chan_recv.
  destruct (chan_len (p_available p)) as [|n] eqn:Hlen.
  - split; [now split|]. intros p' r Hf. discriminate.
  - split; [split; discriminate|].
    intros p' r Hf. injection Hf as Hf.
    unfold fetch_lookup in Hf.
    destruct (snd found) as [e|]; injection Hf as <- <-.
    + split; [reflexivity|]. unfold setErr. cbn [p_info with_available].
      destruct (p_info p !! k); cbn [p_available with_info with_available chan_len chan_recvq p_info];
        (split; [reflexivity|]; split; [reflexivity|]);
        intros k' Hne; now apply lookup_insert_ne.
    + split; [reflexivity|]. unfold set.
      cbn [p_available with_info with_available chan_len chan_recvq p_info].
      split; [reflexivity|]. split; [reflexivity|].
      intros k' Hne. now apply lookup_insert_ne.
Qed.

End FetchPermit.

(** * The properties at concrete values *)

Open Scope Z_scope.

(** C1 at a store that holds a good record for ["gw1"] and nothing for
    ["gw2"]. *)
Lemma setErr_keeps_last_record_witness :
  let p := sample_public 0 None sample_gateway in
  (p_info p !! "gw1" = Some (mkInfo 0 None sample_gateway) /\
   get_gateway (get (setErr p "gw1" (Some "timeout") 7) "gw1" 8 8) = sample_gateway /\
   get_err (get (setErr p "gw1" (Some "timeout") 7) "gw1" 8 8) = Some "timeout") /\
  (p_info p !! "gw2" = None /\
   get_gateway (get (setErr p "gw2" (Some "timeout") 7) "gw2" 8 8) = zero_Gateway /\
   get_err (get (setErr p "gw2" (Some "timeout") 7) "gw2" 8 8) = Some "timeout").
Proof.
  cbv zeta. split.
  - split; [reflexivity|].
    destruct (setErr_keeps_last_record (sample_public 0 None sample_gateway)
                "gw1" (Some "timeout") 7 8 8) as (_ & Hpresent & _).
    destruct (Hpresent (mkInfo 0 None sample_gateway) eq_refl) as (_ & Hg & He).
    split; [exact Hg|exact He].
  - split; [reflexivity|].
    destruct (setErr_keeps_last_record (sample_public 0 None sample_gateway)
                "gw2" (Some "timeout") 7 8 8) as (_ & _ & Habsent).
    destruct (Habsent eq_refl) as (_ & Hg & He).
    split; [exact Hg|exact He].
Defined.

(** C2, against the sentence of the specification: the entry, written at 0, expires after
    10; a read at 100 starts a fetch and stamps the entry with 100; that
    fetch has not completed (the state is the one the read left) when a
    second read at 200 starts another fetch. *)
Lemma second_get_refetches :
  let r1 := get (sample_public 10 None sample_gateway) "gw1" 100 100 in
  let r2 := get (get_state r1) "gw1" 200 200 in
  get_spawned r1 = [GoFetch "gw1"] /\ get_spawned r2 = [GoFetch "gw1"].
Proof. cbv zeta. split; vm_compute; reflexivity. Defined.

(** C2 as the code has it, at the same store: the read at 100 refreshes, and a
    second read at 110, one expiry later, does not. *)
Lemma get_refresh_policy_witness :
  let p := sample_public 10 None sample_gateway in
  p_info p !! "gw1" = Some (mkInfo 0 None sample_gateway) /\
  get_spawned (get p "gw1" 100 100) = [GoFetch "gw1"] /\
  Since 110 100 <= p_expire p /\
  get_gateway (get p "gw1" 100 100) = sample_gateway /\
  get_spawned (get (get_state (get p "gw1" 100 100)) "gw1" 110 110) = [].
Proof.
  cbv zeta.
  destruct (get_refresh_policy (sample_public 10 None sample_gateway) "gw1" 100 100)
    as (_ & _ & Hentry & _).
  destruct (Hentry (mkInfo 0 None sample_gateway) eq_refl) as (Hg & _ & Hstale).
  assert (Hsp : get_spawned (get (sample_public 10 None sample_gateway) "gw1" 100 100)
                = [GoFetch "gw1"]) by (vm_compute; reflexivity).
  assert (Hle : Since 110 100 <= p_expire (sample_public 10 None sample_gateway))
    by (vm_compute; discriminate).
  destruct (Hstale Hsp) as [_ Hsecond].
  split; [reflexivity|]. split; [exact Hsp|]. split; [exact Hle|].
  split; [exact Hg|]. exact (Hsecond 110 110 Hle).
Defined.

(** C3, against the sentence of the specification: the expiry is off and
    nothing is removed; a fetch stored a record at 1; a second fetch for the
    same gateway (the gateway connected again) completes at 2.  If its
    lookup failed, [get] returns the record with the error; if it found
    another record, [get] returns that one. *)
Lemma second_fetch_changes_result :
  let p1 := set (sample_public 0 None blank_brand_gateway) "gw1" sample_gateway 1 in
  let failed := fst (fetch_lookup p1 "gw1" (zero_Gateway, Some "timeout") 2) in
  let replaced := fst (fetch_lookup p1 "gw1" (blank_brand_gateway, None) 2) in
  get_gateway (get p1 "gw1" 3 3) = sample_gateway /\
  p_expire failed = 0 /\ is_Some (p_info failed !! "gw1") /\
  get_gateway (get failed "gw1" 3 3) = sample_gateway /\
  get_err (get failed "gw1" 3 3) = Some "timeout" /\
  p_expire replaced = 0 /\ is_Some (p_info replaced !! "gw1") /\
  get_gateway (get replaced "gw1" 3 3) = blank_brand_gateway /\
  blank_brand_gateway <> sample_gateway.
Proof.
  cbv zeta. repeat (split; [first [reflexivity | eexists; reflexivity]|]).
  discriminate.
Defined.

(** C3 with reads of the gateway, one of them past the expiry, and writes
    to other gateways in between. *)
Lemma set_then_get_witness :
  let ops := [OpGet "gw1" 100 100; OpSet "gw2" blank_brand_gateway 5;
              OpSetErr "gw2" (Some "timeout") 6; OpUnset "gw3"; OpGet "gw1" 101 101] in
  let p := sample_public 10 (Some "timeout") blank_brand_gateway in
  forallb (fun o => negb (rewrites "gw1" o)) ops = true /\
  get_gateway (get (run_ops (set p "gw1" sample_gateway 1) ops) "gw1" 200 200)
    = sample_gateway /\
  get_err (get (run_ops (set p "gw1" sample_gateway 1) ops) "gw1" 200 200) = None.
Proof.
  cbv zeta.
  assert (Hops : forallb (fun o => negb (rewrites "gw1" o))
            [OpGet "gw1" 100 100; OpSet "gw2" blank_brand_gateway 5;
             OpSetErr "gw2" (Some "timeout") 6; OpUnset "gw3"; OpGet "gw1" 101 101]
          = true) by (vm_compute; reflexivity).
  split; [exact Hops|].
  exact (proj2 (proj2 (set_then_get (sample_public 10 (Some "timeout") blank_brand_gateway)
                         "gw1" sample_gateway 1 _ 200 200 Hops))).
Defined.

(** C4 for a gateway that was never fetched and for one just removed. *)
Lemma get_without_entry_witness :
  let p := sample_public 10 None sample_gateway in
  p_info p !! "gw2" = None /\
  get p "gw2" 100 100 = mkGetResult p zero_Gateway None [] /\
  get (unset p "gw1") "gw1" 100 100 = mkGetResult (unset p "gw1") zero_Gateway None [] /\
  NewPublic (float64 := Z) (altitude := Z) "account.example" 50
    = Some (mkPublic 0 ∅ sample_chan) /\
  get_gateway (get (unset p "gw1") "gw1" 100 100)
    = get_gateway (get (mkPublic 0 ∅ sample_chan) "gw1" 3 3).
Proof.
  cbv zeta.
  destruct (get_without_entry (sample_public 10 None sample_gateway) "gw2" 100 100)
    as (Habsent & _ & _).
  destruct (get_without_entry (sample_public 10 None sample_gateway) "gw1" 100 100)
    as (_ & Hunset & Hnew).
  assert (Hp0 : NewPublic (float64 := Z) (altitude := Z) "account.example" 50
                = Some (mkPublic 0 ∅ sample_chan)) by reflexivity.
  split; [reflexivity|]. split; [exact (Habsent eq_refl)|]. split; [exact Hunset|].
  split; [exact Hp0|].
  exact (proj1 (proj2 (Hnew "account.example" 50 _ 3 3 Hp0))).
Defined.

(** C5 with a burst of two: two fetches get through, the third waits for
    the tick. *)
Lemma limiter_invariant_witness :
  0 <= 2 /\
  exists p0 : @Public Z Z,
    NewPublic "account.example" 2 = Some p0 /\
    p_available p0 = Chan 2 2 [] /\
    snd (limiter_run (p0, []) (map EvFetch ["a"; "b"])) = ["a"; "b"] /\
    snd (limiter_run (p0, []) (map EvFetch ["a"; "b"] ++ [EvFetch "c"; EvFetch "d"]))
      = ["a"; "b"] /\
    snd (limiter_run (p0, []) (map EvFetch ["a"; "b"] ++ [EvFetch "c"; EvTick]))
      = ["a"; "b"; "c"].
Proof.
  split; [lia|].
  destruct (limiter_invariant (float64 := Z) (altitude := Z) "account.example" 2
              ltac:(lia))
    as (p0 & Hnew & Hav & _ & _ & _ & _ & Hburst).
  destruct (Hburst ["a"; "b"] "c" eq_refl) as (Hstart & Hwait & Htick).
  exists p0. split; [exact Hnew|]. split; [exact Hav|]. split; [exact Hstart|].
  split; [exact (Hwait [EvFetch "d"] eq_refl)|exact Htick].
Defined.

(** C6: a status message that says platform ["X"] keeps it, although the
    record stored for its gateway has a brand and a model; an uplink that
    has a location keeps it. *)
Lemma enrichment_is_additive_witness :
  let p := sample_public 0 None sample_gateway in
  let gps := mkGPSMetadata 9 9 9 in
  st_Platform (status_Message (sample_status "X")) <> "" /\
  st_Platform (status_Message (h_msg (HandleStatus to_Z to_Z p (sample_status "X") 5 5)))
    = "X" /\
  is_Some (rx_Gps (up_GatewayMetadata (uplink_Message (sample_uplink (Some gps))))) /\
  up_GatewayMetadata (uplink_Message
      (h_msg (HandleUplink to_Z to_Z p (sample_uplink (Some gps)) 5 5)))
    = mkRxMetadata (Some gps).
Proof.
  cbv zeta.
  destruct (enrichment_is_additive to_Z to_Z (sample_public 0 None sample_gateway)
              (sample_uplink (Some (mkGPSMetadata 9 9 9))) (sample_status "X") 5 5)
    as (Hup & _ & _ & _ & Hplatform & _).
  assert (Hne : st_Platform (status_Message (sample_status "X")) <> "")
    by (simpl; discriminate).
  assert (Hset : is_Some (rx_Gps (up_GatewayMetadata
                   (uplink_Message (sample_uplink (Some (mkGPSMetadata 9 9 9)))))))
    by (simpl; eauto).
  split; [exact Hne|]. split; [exact (Hplatform Hne)|].
  split; [exact Hset|exact (Hup Hset)].
Defined.

(** C7, against the sentence of the specification: a brand that is present and empty is
    joined like any other, so the platform starts with the separator. *)
Lemma empty_brand_leaves_separator :
  let p := sample_public 0 None blank_brand_gateway in
  let platform :=
    st_Platform (status_Message (h_msg (HandleStatus to_Z to_Z p (sample_status "") 5 5))) in
  platform = " M" /\
  spec_platform (Attributes blank_brand_gateway) = "M" /\
  platform <> spec_platform (Attributes blank_brand_gateway).
Proof.
  cbv zeta. split; [vm_compute; reflexivity|].
  split; [vm_compute; reflexivity|]. vm_compute. discriminate.
Defined.

(** C7 as the code has it, for a record with a brand and a model. *)
Lemma platform_joins_present_attributes_witness :
  let p := sample_public 0 None sample_gateway in
  st_Platform (status_Message (sample_status "")) = "" /\
  st_Platform (status_Message (h_msg (HandleStatus to_Z to_Z p (sample_status "") 5 5)))
    = "Kerlink IoT Station".
Proof.
  cbv zeta. split; [reflexivity|].
  exact (proj1 (proj2 (platform_joins_present_attributes to_Z to_Z
                         (sample_public 0 None sample_gateway) (sample_status "") 5 5
                         eq_refl))).
Defined.

(** C8, against the sentence of the specification: an uplink or a status
    with [msg.Message] nil, and an uplink with the gateway metadata nil, make
    the handler panic; it returns nothing, whatever the cache holds. *)
Lemma nil_message_panics :
  let p := sample_public 0 None sample_gateway in
  HandleUplink_nilable to_Z to_Z p (mkNilableUplink "gw1" None) 5 5 = Panicked p [] /\
  HandleUplink_nilable to_Z to_Z p
    (mkNilableUplink "gw1" (Some (mkNilableRouterUplink None TraceNil))) 5 5
    = Panicked p [] /\
  HandleStatus_nilable to_Z to_Z p (mkNilableStatus "gw1" None) 5 5 = Panicked p [].
Proof.
  cbv zeta. split; [reflexivity|]. split; reflexivity.
Defined.

(** C8 with an error stored for the gateway of the messages. *)
Lemma handlers_return_nil_witness :
  let p := sample_public 0 (Some "timeout") sample_gateway in
  get_err (get p "gw1" 5 5) = Some "timeout" /\
  h_err (HandleUplink to_Z to_Z p (sample_uplink None) 5 5) = None /\
  h_err (HandleStatus to_Z to_Z p (sample_status "") 5 5) = None /\
  up_Trace (uplink_Message (h_msg (HandleUplink to_Z to_Z p (sample_uplink None) 5 5)))
    = TraceEvent "injecting gateway location" []
        (TraceEvent "unable to get gateway info" [("error", "timeout")] TraceNil).
Proof.
  cbv zeta.
  destruct (handlers_return_nil to_Z to_Z
              (sample_public 0 (Some "timeout") sample_gateway)
              (mkConnectMessage "gw1") (mkDisconnectMessage "gw1")
              (sample_uplink None) (sample_status "") 5 5)
    as (_ & _ & Hup & Hst & _ & Htrace & _).
  assert (He : get_err (get (sample_public 0 (Some "timeout") sample_gateway) "gw1" 5 5)
               = Some "timeout") by reflexivity.
  split; [exact He|]. split; [exact Hup|]. split; [exact Hst|].
  destruct (Htrace "timeout" He) as [H|H]; [discriminate H|exact H].
Defined.

(** C10 for two gateways. *)
Lemma store_ops_frame_witness :
  let p := sample_public 10 None sample_gateway in
  "gw2" <> "gw1" /\
  p_info (set p "gw2" blank_brand_gateway 7) !! "gw1" = p_info p !! "gw1" /\
  p_info (setErr p "gw2" (Some "timeout") 7) !! "gw1" = p_info p !! "gw1" /\
  p_info (get_state (get p "gw2" 100 100)) !! "gw1" = p_info p !! "gw1" /\
  p_info (unset p "gw2") !! "gw1" = p_info p !! "gw1".
Proof.
  cbv zeta.
  assert (Hne : "gw2" <> "gw1") by discriminate.
  split; [exact Hne|].
  exact (store_ops_frame (sample_public 10 None sample_gateway) "gw2" "gw1"
           blank_brand_gateway (Some "timeout") 7 100 100 Hne).
Defined.

(** * The further properties at concrete values *)

Lemma store_ops_commute_witness :
  let p := sample_public 10 None sample_gateway in
  let o1 := @OpSetErr Z Z "gw1" (Some "timeout") 5 in
  let o2 := @OpSet Z Z "gw2" blank_brand_gateway 6 in
  op_key o1 <> op_key o2 /\
  apply_op (apply_op p o1) o2 = apply_op (apply_op p o2) o1.
Proof.
  cbv zeta.
  assert (Hne : op_key (@OpSetErr Z Z "gw1" (Some "timeout") 5)
                <> op_key (@OpSet Z Z "gw2" blank_brand_gateway 6))
    by (simpl; discriminate).
  split; [exact Hne|].
  exact (store_ops_commute (sample_public 10 None sample_gateway) _ _ Hne).
Defined.

Lemma replacing_ops_absorb_witness :
  let p := sample_public 10 None blank_brand_gateway in
  let ops := [@OpSetErr Z Z "gw1" (Some "timeout") 5; OpGet "gw1" 100 100;
              OpUnset "gw1"; OpSet "gw1" blank_brand_gateway 7] in
  forallb (fun o => bool_decide (op_key o = "gw1")) ops = true /\
  set (run_ops p ops) "gw1" sample_gateway 9 = set p "gw1" sample_gateway 9.
Proof.
  cbv zeta.
  assert (Hall : forallb (fun o => bool_decide (op_key o = "gw1"))
                   [@OpSetErr Z Z "gw1" (Some "timeout") 5; OpGet "gw1" 100 100;
                    OpUnset "gw1"; OpSet "gw1" blank_brand_gateway 7] = true)
    by (vm_compute; reflexivity).
  split; [exact Hall|].
  exact (proj1 (replacing_ops_absorb _ (sample_public 10 None blank_brand_gateway)
                  "gw1" sample_gateway 9 Hall)).
Defined.

Lemma unset_missing_witness :
  let p := sample_public 10 None sample_gateway in
  p_info p !! "gw2" = None /\ unset p "gw2" = p.
Proof.
  cbv zeta. split; [reflexivity|].
  exact (proj1 (unset_missing (sample_public 10 None sample_gateway) "gw2") eq_refl).
Defined.

Lemma entry_present_after_witness :
  let p := sample_public 10 None sample_gateway in
  let ops := [@OpUnset Z Z "gw1"; OpGet "gw1" 1 1; OpSetErr "gw1" (Some "timeout") 3;
              OpUnset "gw2"] in
  (is_Some (p_info p !! "gw1") <-> true = true) /\
  (is_Some (p_info (run_ops p ops) !! "gw1") <-> present_after "gw1" true ops = true).
Proof.
  cbv zeta.
  assert (H0 : is_Some (p_info (sample_public 10 None sample_gateway) !! "gw1")
               <-> true = true)
    by (split; [reflexivity|intros _; eexists; reflexivity]).
  split; [exact H0|].
  exact (entry_present_after _ (sample_public 10 None sample_gateway) "gw1" true H0).
Defined.

Lemma failures_keep_record_witness :
  let p := sample_public 10 None sample_gateway in
  let ops := [@OpSetErr Z Z "gw1" (Some "timeout") 5; OpGet "gw1" 100 100;
              OpSetErr "gw1" (Some "refused") 120; OpUnset "gw2"] in
  forallb (fun o => negb (replaces "gw1" o)) ops = true /\
  get_gateway (get (run_ops p ops) "gw1" 200 200) = get_gateway (get p "gw1" 0 0).
Proof.
  cbv zeta.
  assert (Hall : forallb (fun o => negb (replaces "gw1" o))
                   [@OpSetErr Z Z "gw1" (Some "timeout") 5; OpGet "gw1" 100 100;
                    OpSetErr "gw1" (Some "refused") 120; OpUnset "gw2"] = true)
    by (vm_compute; reflexivity).
  split; [exact Hall|].
  exact (failures_keep_record _ (sample_public 10 None sample_gateway)
           "gw1" 200 200 0 0 Hall).
Defined.

Lemma fetch_result_is_cached_witness :
  let p := sample_public 10 None blank_brand_gateway in
  snd (sample_gateway, @None error) = None /\
  get_gateway (get (fst (fetch_lookup p "gw2" (sample_gateway, None) 5)) "gw2" 6 6)
    = sample_gateway.
Proof.
  cbv zeta. split; [reflexivity|].
  exact (proj2 (proj2 (fetch_result_is_cached (sample_public 10 None blank_brand_gateway)
                         "gw2" (sample_gateway, None) 5 6 6)) eq_refl).
Defined.

Lemma handlers_only_read_witness :
  let p := sample_public 10 (Some "timeout") sample_gateway in
  let q := h_state (HandleStatus to_Z to_Z p (sample_status "") 100 100) in
  get_gateway (get q "gw1" 1 1) = get_gateway (get p "gw1" 2 2) /\
  get_err (get q "gw1" 1 1) = get_err (get p "gw1" 2 2) /\
  p_available q = p_available p.
Proof.
  cbv zeta.
  destruct (handlers_only_read to_Z to_Z (sample_public 10 (Some "timeout") sample_gateway)
              (mkConnectMessage "gw1") (mkDisconnectMessage "gw1")
              (sample_uplink None) (sample_status "") 100 100 _
              (or_intror (or_intror (or_intror eq_refl))))
    as (Hread & _ & Hav & _).
  destruct (Hread "gw1" 1 1 2 2) as [Hg He].
  split; [exact Hg|]. split; [exact He|exact Hav].
Defined.

Lemma handlers_without_entry_witness :
  let p := sample_public 10 None sample_gateway in
  let sm := @mkStatusMessage Z Z "gw2" (mkStatus None "" "" "") in
  p_info p !! status_GatewayID sm = None /\
  HandleStatus to_Z to_Z p sm 100 100 = mkHandled p sm [] None.
Proof.
  cbv zeta. split; [reflexivity|].
  exact (proj1 (proj1 (proj2
           (handlers_without_entry to_Z to_Z (sample_public 10 None sample_gateway)
              (sample_uplink None)
              (@mkStatusMessage Z Z "gw2" (mkStatus None "" "" "")) 100 100)) eq_refl)).
Defined.

Lemma enrichment_idempotent_witness :
  let p := sample_public 10 None sample_gateway in
  let u1 := HandleUplink to_Z to_Z p (sample_uplink None) 100 100 in
  get_err (get p (uplink_GatewayID (sample_uplink None)) 100 100) = None /\
  h_msg (HandleUplink to_Z to_Z (h_state u1) (h_msg u1) 101 101) = h_msg u1.
Proof.
  cbv zeta. split; [reflexivity|].
  exact (proj2 (proj2 (enrichment_idempotent to_Z to_Z
                         (sample_public 10 None sample_gateway)
                         (sample_uplink None) (sample_status "") 100 100 101 101))
           eq_refl).
Defined.

Lemma connect_enrich_disconnect_witness :
  let p := sample_public 0 None blank_brand_gateway in
  let um := @mkUplinkMessage Z Z "gw1" (mkRouterUplink (mkRxMetadata None) TraceNil) in
  let p1 := set (with_available p (Chan 50 49 [])) "gw1" sample_gateway 5 in
  p_available p = Chan 50 50 [] /\
  AntennaLocation sample_gateway = Some sample_location /\
  h_msg (HandleUplink to_Z to_Z p1 um 6 6)
    = mkUplinkMessage "gw1"
        (mkRouterUplink (mkRxMetadata (Some (mkGPSMetadata 1 2 3)))
           (TraceEvent "injecting gateway location" [] TraceNil)).
Proof.
  cbv zeta. split; [reflexivity|]. split; [reflexivity|].
  exact (proj1 (proj2 (proj2
           (connect_enrich_disconnect to_Z to_Z (sample_public 0 None blank_brand_gateway)
              "gw1" sample_gateway sample_location 5 50%nat 49%nat [] TraceNil 6 6 7 7
              eq_refl eq_refl)))).
Defined.

Lemma limiter_loses_no_fetch_witness :
  let p := @mkPublic Z Z 0 ∅ (Chan 1 1 []) in
  let evs := [EvFetch "a"; EvFetch "b"; EvTick; EvFetch "c"] in
  NewPublic "account.example" 1 = Some p /\
  snd (limiter_run (p, []) evs) ++ chan_recvq (p_available (fst (limiter_run (p, []) evs)))
    ≡ₚ fetched evs.
Proof.
  cbv zeta. split; [reflexivity|].
  exact (proj1 (limiter_loses_no_fetch "account.example" 1
                  (@mkPublic Z Z 0 ∅ (Chan 1 1 []))
                  [EvFetch "a"; EvFetch "b"; EvTick; EvFetch "c"] eq_refl)).
Defined.

Lemma idle_ticks_saturate_witness :
  let p := @mkPublic Z Z 0 ∅ (Chan 3 1 []) in
  p_available p = Chan 3 1 [] /\ (1 <= 3)%nat /\
  limiter_run (p, []) (repeat EvTick 5) = (with_available p (Chan 3 3 []), []).
Proof.
  cbv zeta. split; [reflexivity|]. split; [lia|].
  exact (idle_ticks_saturate (@mkPublic Z Z 0 ∅ (Chan 3 1 [])) [] 3%nat 1%nat 5%nat
           eq_refl ltac:(lia)).
Defined.

Lemma ticks_release_oldest_first_witness :
  let p := @mkPublic Z Z 0 ∅ (Chan 2 0 ["a"; "b"; "c"]) in
  p_available p = Chan 2 0 ["a"; "b"; "c"] /\
  snd (limiter_run (p, []) (repeat EvTick 2)) = ["a"; "b"] /\
  p_available (fst (limiter_run (p, []) (repeat EvTick 2))) = Chan 2 0 ["c"].
Proof.
  cbv zeta. split; [reflexivity|].
  exact (ticks_release_oldest_first (@mkPublic Z Z 0 ∅ (Chan 2 0 ["a"; "b"; "c"]))
           [] 2%nat ["a"; "b"; "c"] 2%nat eq_refl).
Defined.

Lemma NewPublic_initial_witness :
  0 <= 50 /\
  exists p : @Public Z Z,
    NewPublic "account.example" 50 = Some p /\ p_info p = ∅ /\
    p_available p = sample_chan.
Proof.
  split; [lia|].
  destruct (proj2 (NewPublic_initial (float64 := Z) (altitude := Z) "account.example" 50)
              ltac:(lia))
    as (p & Hnew & Hinfo & _ & Hav & _).
  exists p. split; [exact Hnew|]. split; [exact Hinfo|exact Hav].
Defined.

Lemma stale_stays_stale_witness :
  let p := sample_public 10 None sample_gateway in
  100 <= 200 /\
  get_spawned (get p "gw1" 100 100) = [GoFetch "gw1"] /\
  get_spawned (get p "gw1" 200 200) = [GoFetch "gw1"].
Proof.
  cbv zeta.
  assert (H1 : get_spawned (get (sample_public 10 None sample_gateway) "gw1" 100 100)
               = [GoFetch "gw1"]) by (vm_compute; reflexivity).
  split; [lia|]. split; [exact H1|].
  exact (stale_stays_stale (sample_public 10 None sample_gateway) "gw1" 100 100 200 200
           ltac:(lia) H1).
Defined.

Lemma negative_expire_refetches_witness :
  let p := sample_public (-1) None sample_gateway in
  p_expire p < 0 /\
  p_info p !! "gw1" = Some (mkInfo 0 None sample_gateway) /\
  get_spawned (get p "gw1" 0 0) = [GoFetch "gw1"].
Proof.
  cbv zeta. split; [reflexivity|]. split; [reflexivity|].
  exact (negative_expire_refetches (sample_public (-1) None sample_gateway) "gw1"
           (mkInfo 0 None sample_gateway) 0 0 eq_refl eq_refl ltac:(simpl; lia)).
Defined.

Lemma refresh_cycle_witness :
  let p := sample_public 10 None sample_gateway in
  let found := (blank_brand_gateway, Some "timeout") in
  let p1 := fst (fetch_lookup (get_state (get p "gw1" 100 100)) "gw1" found 105) in
  get_spawned (get p "gw1" 100 100) = [GoFetch "gw1"] /\
  get_spawned (get p1 "gw1" 110 110) = [] /\
  get_err (get p1 "gw1" 110 110) = Some "timeout" /\
  get_gateway (get p1 "gw1" 110 110) = sample_gateway /\
  get_spawned (get p1 "gw1" 200 200) = [GoFetch "gw1"].
Proof.
  cbv zeta.
  destruct (refresh_cycle (sample_public 10 None sample_gateway) "gw1"
              (mkInfo 0 None sample_gateway) 100 100
              (blank_brand_gateway, Some "timeout") 105 110 110 200 200
              eq_refl ltac:(simpl; lia) ltac:(vm_compute; reflexivity)
              ltac:(vm_compute; discriminate) ltac:(vm_compute; reflexivity))
    as (H0 & _ & H2 & _ & He & Hg & H3).
  split; [exact H0|]. split; [exact H2|]. split; [exact He|].
  split; [exact Hg|exact H3].
Defined.

Lemma fetch_needs_permit_witness :
  let p := sample_public 10 None sample_gateway in
  fetch p "gw2" (blank_brand_gateway, None) 5
    = Some (set (with_available p (Chan 50 49 [])) "gw2" blank_brand_gateway 5, None) /\
  p_info (set (with_available p (Chan 50 49 [])) "gw2" blank_brand_gateway 5) !! "gw1"
    = p_info p !! "gw1".
Proof.
  cbv zeta.
  assert (Hf : fetch (sample_public 10 None sample_gateway) "gw2" (blank_brand_gateway, None) 5
               = Some (set (with_available (sample_public 10 None sample_gateway)
                              (Chan 50 49 [])) "gw2" blank_brand_gateway 5, None))
    by reflexivity.
  split; [exact Hf|].
  destruct (proj2 (fetch_needs_permit (sample_public 10 None sample_gateway) "gw2"
                     (blank_brand_gateway, None) 5) _ _ Hf) as (_ & _ & _ & Hother).
  exact (Hother "gw1" ltac:(discriminate)).
Defined.
